(** * NavigatorService: the checkout step navigator

    A shallow embedding of [src/services/NavigatorService.js].

    The service keeps six closure variables ([navigation], [container],
    [current], [buttonPrev], [buttonNext], [interceptors]) and works on the
    host document through jQuery.  The embedding keeps the document and the
    closure variables in one [State] that every operation threads
    explicitly.

    Modelling conventions.
    - The document is static apart from the attributes the service writes:
      marker classes, [aria-selected] flags, label paddings, panel
      visibility, the [disabled] attribute and width of both buttons, and the
      location fragment.
    - [navigation] and [container] are jQuery collections of live elements.
      After [init] has queried them they alias the document's markers and
      panels; before that they are the empty arrays of the declaration.  The
      flag [bound] records which of the two holds.
    - Every marker carries one label [span]; its content width and those of
      the buttons and of the wrapper are measurements the layout engine
      supplies, in whole pixels.  They do not depend on what the service
      writes.
    - The location fragment is kept as it is written (no percent-encoding);
      the [hashchange] event a write may raise is delivered later, by the
      host (see [on_hashchange]).
    - Indices are whole numbers ([Z]); identifiers and fragments are
      strings.
    - Interceptors are host callbacks.  They may keep state of their own
      (the type [World]) but do not call back into the navigator; each
      invocation is recorded in [trace]. *)

From Stdlib Require Import ZArith Ascii.
From stdpp Require Import base numbers list strings.

Local Open Scope Z_scope.

(** ** JavaScript values returned by callbacks *)

Inductive JsValue : Type :=
| JsUndefined
| JsNull
| JsBool (b : bool)
| JsNumber (n : Z)
| JsString (s : string).

(** [v === false] *)
Definition strictly_false (v : JsValue) : bool :=
  match v with
  | JsBool false => true
  | _ => false
  end.

(** ** Elements of the host document *)

Inductive CssClass : Type := Disabled | Active | Visited.

(** A navigation marker, [[data-plenty-checkout="navigation"] > li]. *)
Record Marker : Type := mkMarker {
  cls_disabled : bool;
  cls_active : bool;
  cls_visited : bool;
  (* [aria-selected] of each [[role="tab"]] descendant; [None]: not set *)
  aria_selected : list (option string);
  (* [$(elem).children('span').width()] *)
  label_width : Z;
  (* inline [paddingLeft] / [paddingRight] of the label, in px *)
  padding_left : Z;
  padding_right : Z
}.

Definition addClass (c : CssClass) (m : Marker) : Marker :=
  match c with
  | Disabled => mkMarker true (cls_active m) (cls_visited m) (aria_selected m)
                         (label_width m) (padding_left m) (padding_right m)
  | Active => mkMarker (cls_disabled m) true (cls_visited m) (aria_selected m)
                       (label_width m) (padding_left m) (padding_right m)
  | Visited => mkMarker (cls_disabled m) (cls_active m) true (aria_selected m)
                        (label_width m) (padding_left m) (padding_right m)
  end.

Definition removeClass (c : CssClass) (m : Marker) : Marker :=
  match c with
  | Disabled => mkMarker false (cls_active m) (cls_visited m) (aria_selected m)
                         (label_width m) (padding_left m) (padding_right m)
  | Active => mkMarker (cls_disabled m) false (cls_visited m) (aria_selected m)
                       (label_width m) (padding_left m) (padding_right m)
  | Visited => mkMarker (cls_disabled m) (cls_active m) false (aria_selected m)
                        (label_width m) (padding_left m) (padding_right m)
  end.

(** [$(elem).is('.c')] *)
Definition hasClass (c : CssClass) (m : Marker) : bool :=
  match c with
  | Disabled => cls_disabled m
  | Active => cls_active m
  | Visited => cls_visited m
  end.

(** [$(elem).find('[role="tab"]').attr('aria-selected', v)] *)
Definition set_aria_selected (v : string) (m : Marker) : Marker :=
  mkMarker (cls_disabled m) (cls_active m) (cls_visited m)
           (map (fun _ => Some v) (aria_selected m))
           (label_width m) (padding_left m) (padding_right m).

(** [.css('paddingLeft', l + 'px').css('paddingRight', r + 'px')] *)
Definition set_padding (l r : Z) (m : Marker) : Marker :=
  mkMarker (cls_disabled m) (cls_active m) (cls_visited m) (aria_selected m)
           (label_width m) l r.

(** A content panel, [[data-plenty-checkout="container"] > div]. *)
Record Panel : Type := mkPanel {
  (* attribute [data-plenty-checkout-id]; [None]: attribute missing *)
  checkout_id : option string;
  shown : bool
}.

Definition hide (p : Panel) : Panel := mkPanel (checkout_id p) false.
Definition show (p : Panel) : Panel := mkPanel (checkout_id p) true.

(** A control button. *)
Record Button : Type := mkButton {
  attr_disabled : bool;
  (* [outerWidth()] and [outerWidth(true)] measured at [width: auto] *)
  outer_width : Z;
  outer_width_margin : Z;
  (* explicit width; [None]: [auto] *)
  css_width : option Z
}.

Definition set_disabled (b : bool) (x : Button) : Button :=
  mkButton b (outer_width x) (outer_width_margin x) (css_width x).

Definition set_width (w : option Z) (x : Button) : Button :=
  mkButton (attr_disabled x) (outer_width x) (outer_width_margin x) w.

Record Document : Type := mkDocument {
  markers : list Marker;
  panels : list Panel;
  button_next : Button;
  button_prev : Button;
  (* [$(navigation).parent().parent().outerWidth(true)] *)
  wrapper_outer_width : Z;
  (* [parseInt($(navigation).parent().css('marginLeft'))], and right *)
  margin_left : Z;
  margin_right : Z;
  (* the location fragment, without its leading [#] *)
  fragment : string;
  (* what [$.urlParam] captures for [gototab] in the location, if its
     pattern matches *)
  url_gototab : option string
}.

Definition with_markers (l : list Marker) (d : Document) : Document :=
  mkDocument l (panels d) (button_next d) (button_prev d)
             (wrapper_outer_width d) (margin_left d) (margin_right d)
             (fragment d) (url_gototab d).

Definition with_panels (l : list Panel) (d : Document) : Document :=
  mkDocument (markers d) l (button_next d) (button_prev d)
             (wrapper_outer_width d) (margin_left d) (margin_right d)
             (fragment d) (url_gototab d).

Definition with_button_next (b : Button) (d : Document) : Document :=
  mkDocument (markers d) (panels d) b (button_prev d)
             (wrapper_outer_width d) (margin_left d) (margin_right d)
             (fragment d) (url_gototab d).

Definition with_button_prev (b : Button) (d : Document) : Document :=
  mkDocument (markers d) (panels d) (button_next d) b
             (wrapper_outer_width d) (margin_left d) (margin_right d)
             (fragment d) (url_gototab d).

Definition with_fragment (f : string) (d : Document) : Document :=
  mkDocument (markers d) (panels d) (button_next d) (button_prev d)
             (wrapper_outer_width d) (margin_left d) (margin_right d)
             f (url_gototab d).

(** ** Interceptors and the navigator state *)

(** The object handed to interceptors and returned by
    [getCurrentContainer]: [{index: ..., id: ...}]. *)
Record Target : Type := mkTarget {
  index : Z;
  id : option string
}.

Inductive Kind : Type := BeforeChange | AfterChange.

(** One invocation of the interceptor registered at [position] in the list
    of its kind. *)
Record Event : Type := Called {
  kind : Kind;
  position : nat;
  argument : Target
}.

Section Navigator.

(** State owned by the host code that registers interceptors. *)
Context {World : Type}.

Definition Interceptor : Type := Target -> World -> JsValue * World.

Record State : Type := mkState {
  doc : Document;
  (* [navigation], [container], [buttonNext], [buttonPrev] hold the queried
     elements *)
  bound : bool;
  current : Z;
  beforeChange_list : list Interceptor;
  afterChange_list : list Interceptor;
  (* how many times [init] attached its event handlers *)
  wired : nat;
  world : World;
  trace : list Event
}.

Definition with_doc (d : Document) (s : State) : State :=
  mkState d (bound s) (current s) (beforeChange_list s) (afterChange_list s)
          (wired s) (world s) (trace s).

Definition with_bound (b : bool) (s : State) : State :=
  mkState (doc s) b (current s) (beforeChange_list s) (afterChange_list s)
          (wired s) (world s) (trace s).

Definition with_current (c : Z) (s : State) : State :=
  mkState (doc s) (bound s) c (beforeChange_list s) (afterChange_list s)
          (wired s) (world s) (trace s).

Definition with_wired (n : nat) (s : State) : State :=
  mkState (doc s) (bound s) (current s) (beforeChange_list s)
          (afterChange_list s) n (world s) (trace s).

Definition with_host (w : World) (tr : list Event) (s : State) : State :=
  mkState (doc s) (bound s) (current s) (beforeChange_list s)
          (afterChange_list s) (wired s) w tr.

(** The closure variables [navigation] and [container]. *)
Definition navigation (s : State) : list Marker :=
  if bound s then markers (doc s) else [].

Definition container (s : State) : list Panel :=
  if bound s then panels (doc s) else [].

(** Writes through the collections reach the document's elements. *)
Definition set_navigation (l : list Marker) (s : State) : State :=
  if bound s then with_doc (with_markers l (doc s)) s else s.

Definition set_container (l : list Panel) (s : State) : State :=
  if bound s then with_doc (with_panels l (doc s)) s else s.

(** Before [init], [buttonNext] and [buttonPrev] are plain objects: what is
    written to them does not reach the document. *)
Definition update_buttonNext (f : Button -> Button) (s : State) : State :=
  if bound s then with_doc (with_button_next (f (button_next (doc s))) (doc s)) s
  else s.

Definition update_buttonPrev (f : Button -> Button) (s : State) : State :=
  if bound s then with_doc (with_button_prev (f (button_prev (doc s))) (doc s)) s
  else s.

(** [container[i]], [undefined] outside the collection. *)
Definition container_at (s : State) (i : Z) : option Panel :=
  if i <? 0 then None else container s !! Z.to_nat i.

(** [$(p).attr('data-plenty-checkout-id')], [undefined] on the empty
    selection. *)
Definition attr_id (p : option Panel) : option string :=
  match p with
  | Some x => checkout_id x
  | None => None
  end.

(** [window.location.hash] *)
Definition location_hash (s : State) : string :=
  if String.eqb (fragment (doc s)) "" then ""
  else String "#"%char (fragment (doc s)).

(** [window.location.hash = v]: one leading [#] is dropped, [undefined] is
    converted to the string of that name. *)
Definition hash_fragment (v : option string) : string :=
  let text := match v with
              | Some x => x
              | None => "undefined"%string
              end in
  match text with
  | String "#"%char rest => rest
  | _ => text
  end.

Definition set_location_hash (v : option string) (s : State) : State :=
  with_doc (with_fragment (hash_fragment v) (doc s)) s.

(** ** getCurrentContainer *)

Definition getCurrentContainer (s : State) : option Target :=
  if 0 <=? current s then
    Some (mkTarget (current s) (attr_id (container_at s (current s))))
  else None.

(** ** beforeChange / afterChange *)

Definition beforeChange (interceptor : Interceptor) (s : State) : State :=
  mkState (doc s) (bound s) (current s)
          (beforeChange_list s ++ [interceptor]) (afterChange_list s)
          (wired s) (world s) (trace s).

Definition afterChange (interceptor : Interceptor) (s : State) : State :=
  mkState (doc s) (bound s) (current s)
          (beforeChange_list s) (afterChange_list s ++ [interceptor])
          (wired s) (world s) (trace s).

(** ** resolveInterceptors *)

Definition interceptors (identifier : Kind) (s : State) : list Interceptor :=
  match identifier with
  | BeforeChange => beforeChange_list s
  | AfterChange => afterChange_list s
  end.

(** The [$.each] loop: the callback's [return false] leaves the loop. *)
Fixpoint each_interceptor (identifier : Kind) (params : Target) (i : nat)
    (l : list Interceptor) (w : World) (tr : list Event)
    : bool * (World * list Event) :=
  match l with
  | [] => (true, (w, tr))
  | interceptor :: rest =>
      let '(v, w') := interceptor params w in
      let tr' := tr ++ [Called identifier i params] in
      if strictly_false v then (false, (w', tr'))
      else each_interceptor identifier params (S i) rest w' tr'
  end.

Definition resolveInterceptors (identifier : Kind) (params : Target)
    (s : State) : bool * State :=
  let '(continueTabChange, (w, tr)) :=
    each_interceptor identifier params 0 (interceptors identifier s)
                     (world s) (trace s) in
  (continueTabChange, with_host w tr s).

(** ** fillNavigation *)

(** [parseInt(a / b)] for whole [a] and [b]: the quotient is printed and
    read back up to the decimal point, that is cut towards zero.  (The
    printing is in decimal notation for quotients that are zero or between
    1e-6 and 1e21 in size, which is where pixel widths shared among the
    markers of a page lie.) *)
Definition parseInt_div (a b : Z) : Z := Z.quot a b.

(** The second [$(navigation).each] loop; [diff] is shared by all rounds. *)
Fixpoint spread_padding (padding diff : Z) (l : list Marker) : list Marker :=
  match l with
  | [] => []
  | elem :: rest =>
      let paddingLeft := padding in
      let paddingRight := padding in
      let '(paddingLeft, diff) :=
        if 0 <? diff then (paddingLeft + 1, diff - 1) else (paddingLeft, diff) in
      let '(paddingRight, diff) :=
        if 0 <? diff then (paddingRight + 1, diff - 1) else (paddingRight, diff) in
      set_padding paddingLeft paddingRight elem
        :: spread_padding padding diff rest
  end.

Definition buttonWidth (s : State) : Z :=
  if outer_width (button_prev (doc s)) <? outer_width (button_next (doc s))
  then outer_width_margin (button_next (doc s)) + 1
  else outer_width_margin (button_prev (doc s)) + 1.

(** The width left for paddings: wrapper minus buttons, margins, labels. *)
Definition remaining_width (s : State) : Z :=
  let width := wrapper_outer_width (doc s) - 2 * buttonWidth s in
  let width := width - (margin_left (doc s) + margin_right (doc s)) in
  fold_left (fun width elem => width - label_width elem) (navigation s) width.

Definition fillNavigation (s : State) : State :=
  if Z.of_nat (length (navigation s)) <=? 0 then s
  else
    let bw := buttonWidth s in
    let width := remaining_width s in
    let s := update_buttonNext (set_width (Some bw)) s in
    let s := update_buttonPrev (set_width (Some bw)) s in
    let n := Z.of_nat (length (navigation s)) in
    let padding := parseInt_div width (n * 2) in
    let diff := width - n * padding * 2 in
    set_navigation (spread_padding padding diff (navigation s)) s.

(** ** goTo *)

(** The callback of the marker loop of [goTo]. *)
Definition refresh_marker (cur : Z) (i : nat) (elem : Marker) : Marker :=
  let elem := removeClass Active (removeClass Disabled elem) in
  let elem := set_aria_selected "false" elem in
  if Z.of_nat i <? cur then addClass Visited elem
  else if Z.of_nat i =? cur then
    set_aria_selected "true" (addClass Visited (addClass Active elem))
  else if (cur <? Z.of_nat i) && negb (hasClass Visited elem) then
    addClass Disabled elem
  else elem.

(** [$(container).hide()] *)
Definition hide_container (s : State) : State :=
  set_container (map hide (container s)) s.

(** Lines 232-252: the loop over the markers. *)
Definition refresh_navigation (s : State) : State :=
  set_navigation (imap (refresh_marker (current s)) (navigation s)) s.

(** Lines 256-260: the "previous" button. *)
Definition toggle_buttonPrev (s : State) : State :=
  if current s <=? 0 then update_buttonPrev (set_disabled true) s
  else update_buttonPrev (set_disabled false) s.

(** Lines 263-268: the "next" button. *)
Definition toggle_buttonNext (s : State) : State :=
  if current s + 1 =? Z.of_nat (length (navigation s))
  then update_buttonNext (set_disabled true) s
  else update_buttonNext (set_disabled false) s.

(** [$(container[current]).show()] *)
Definition show_current (s : State) : State :=
  if current s <? 0 then s
  else set_container (alter show (Z.to_nat (current s)) (container s)) s.

(** Lines 274-281: the location hash. *)
Definition update_hash (s : State) : State :=
  if 0 <? current s then
    set_location_hash (attr_id (container_at s (current s))) s
  else if (0 <? String.length (location_hash s))%nat then
    set_location_hash (Some ""%string) s
  else s.

(** Lines 226-281 of [goTo]: everything between the interceptor phases. *)
Definition goTo_update (index : Z) (s : State) : State :=
  let s := with_current index s in
  let s := hide_container s in
  let s := refresh_navigation s in
  let s := fillNavigation s in
  let s := toggle_buttonPrev s in
  let s := toggle_buttonNext s in
  let s := show_current s in
  update_hash s.

Definition goTo (index : Z) (ignoreInterceptors : bool) (s : State) : State :=
  let targetContainer := mkTarget index (attr_id (container_at s index)) in
  let contentChanged := negb (current s =? index) in
  let finish (s : State) : State :=
    let s := goTo_update index s in
    if contentChanged then snd (resolveInterceptors AfterChange targetContainer s)
    else s in
  if contentChanged && negb ignoreInterceptors then
    let '(ok, s) := resolveInterceptors BeforeChange targetContainer s in
    if negb ok then s else finish s
  else finish s.

(** ** continueChange, next, previous *)

Definition continueChange (targetContainer : Target) (s : State) : State :=
  goTo (index targetContainer) true s.

Definition next (s : State) : State :=
  if current s <? Z.of_nat (length (navigation s)) - 1 then
    goTo (current s + 1) false s
  else s.

Definition previous (s : State) : State :=
  if 0 <? current s then goTo (current s - 1) false s else s.

(** ** goToID *)

(** [containerID.replace('#', '')]: the first [#] of the text is removed. *)
Fixpoint replace_hash (containerID : string) : string :=
  match containerID with
  | EmptyString => EmptyString
  | String c rest =>
      if Ascii.eqb c "#" then rest else String c (replace_hash rest)
  end.

(** [$(elem).attr('data-plenty-checkout-id') == containerID] *)
Definition attr_matches (a : option string) (containerID : string) : bool :=
  match a with
  | Some x => String.eqb x containerID
  | None => false
  end.

(** The [$(container).each] loop over the elements of the collection.  Its
    callback returns [true] or nothing, neither of which leaves the loop. *)
Fixpoint each_container (containerID : string) (i : nat) (l : list Panel)
    (s : State) : State :=
  match l with
  | [] => s
  | elem :: rest =>
      let s :=
        if attr_matches (checkout_id elem) containerID
        then goTo (Z.of_nat i) false s
        else s in
      each_container containerID (S i) rest s
  end.

Definition goToID (containerID : string) (s : State) : bool * State :=
  if String.eqb containerID "next" then (true, next s)
  else if String.eqb containerID "prev" then (true, previous s)
  else
    let containerID := replace_hash containerID in
    (false, each_container containerID 0 (container s) s).

(** ** init *)

(** [$.urlParam('gototab')]: [null] without a match, else
    [results[1] || 0]. *)
Definition urlParam_gototab (s : State) : JsValue :=
  match url_gototab (doc s) with
  | None => JsNull
  | Some r => if String.eqb r "" then JsNumber 0 else JsString r
  end.

(** [!!v] *)
Definition truthy (v : JsValue) : bool :=
  match v with
  | JsUndefined | JsNull => false
  | JsBool b => b
  | JsNumber n => negb (n =? 0)
  | JsString x => negb (String.eqb x "")
  end.

(** [$('[data-plenty-checkout-id="' + param + '"]').length > 0]; the panels
    are the elements of the document that carry the attribute. *)
Definition has_checkout_id (param : JsValue) (s : State) : bool :=
  match param with
  | JsString x =>
      existsb (fun p => attr_matches (checkout_id p) x) (panels (doc s))
  | _ => false
  end.

Definition text_of (v : JsValue) : option string :=
  match v with
  | JsString x => Some x
  | _ => None
  end.

Definition init (s : State) : State :=
  let s := with_bound true s in
  if (length (navigation s) =? length (container s))%nat
     && (0 <? length (container s))%nat then
    let s := set_container (map hide (container s)) s in
    let s := set_navigation (map (addClass Disabled) (navigation s)) s in
    let s := update_buttonNext (set_disabled true) s in
    let s := update_buttonPrev (set_disabled true) s in
    let s := with_wired (S (wired s)) s in
    let param := urlParam_gototab s in
    let s :=
      if (String.length (location_hash s) =? 0)%nat && truthy param
         && has_checkout_id param s
      then set_location_hash (text_of param) s
      else
        let '(found, s) := goToID (location_hash s) s in
        if negb found && (0 <=? current s) then goTo (current s) false s
        else goTo 0 false s in
    fillNavigation s
  else s.

(** The handlers [init] attaches, as the host runs them later. *)
Definition on_marker_click (i : nat) (s : State) : State :=
  match navigation s !! i with
  | Some elem =>
      if negb (hasClass Disabled elem) then goTo (Z.of_nat i) false s else s
  | None => s
  end.

Definition on_hashchange (s : State) : State :=
  if (0 <? String.length (location_hash s))%nat
  then snd (goToID (location_hash s) s)
  else goTo 0 false s.

End Navigator.

(** * Vocabulary of the properties *)

(** The invocations of the interceptors at positions [i .. i+n-1], in that
    order, each with the same argument. *)
Definition calls (identifier : Kind) (params : Target) (i n : nat)
    : list Event :=
  map (fun p => Called identifier p params) (seq i n).


(** One more pixel for the marker at position [k] when pixel number [j] of
    the leftover exists; the left side of marker [k] is pixel [2k], its
    right side pixel [2k+1]. *)
Definition leftover_pixel (j diff : Z) : Z := if j <? diff then 1 else 0.

(** The document a bound navigator shows at step [i], field by field: what
    [goTo_update] amounts to once its steps are put together. *)
Definition document_buttonWidth (d : Document) : Z :=
  if outer_width (button_prev d) <? outer_width (button_next d)
  then outer_width_margin (button_next d) + 1
  else outer_width_margin (button_prev d) + 1.

Definition document_remaining_width (d : Document) : Z :=
  fold_left (fun width elem => width - label_width elem) (markers d)
    (wrapper_outer_width d - 2 * document_buttonWidth d
     - (margin_left d + margin_right d)).

(** What the layout pass measures. *)
Definition measures (d : Document) : list Z * (Z * Z) * (Z * Z) * (Z * Z * Z) :=
  (map label_width (markers d),
   (outer_width (button_prev d), outer_width (button_next d)),
   (outer_width_margin (button_prev d), outer_width_margin (button_next d)),
   (wrapper_outer_width d, margin_left d, margin_right d)).


Definition rendered_markers (i : Z) (d : Document) : list Marker :=
  let n := Z.of_nat (length (markers d)) in
  let padding := parseInt_div (document_remaining_width d) (n * 2) in
  let diff := document_remaining_width d - n * padding * 2 in
  if n <=? 0 then imap (refresh_marker i) (markers d)
  else spread_padding padding diff (imap (refresh_marker i) (markers d)).

Definition rendered_panels (i : Z) (d : Document) : list Panel :=
  if i <? 0 then map hide (panels d)
  else alter show (Z.to_nat i) (map hide (panels d)).

Definition rendered_button (off : bool) (d : Document) (b : Button) : Button :=
  set_disabled off
    (if Z.of_nat (length (markers d)) <=? 0 then b
     else set_width (Some (document_buttonWidth d)) b).

Definition rendered_fragment (i : Z) (d : Document) : string :=
  if 0 <? i then
    hash_fragment
      (attr_id (if i <? 0 then None else rendered_panels i d !! Z.to_nat i))
  else if (0 <? String.length
                  (if String.eqb (fragment d) "" then ""%string
                   else String "#"%char (fragment d)))%nat
  then hash_fragment (Some ""%string)
  else fragment d.

Definition rendered (i : Z) (d : Document) : Document :=
  mkDocument (rendered_markers i d) (rendered_panels i d)
             (rendered_button (i + 1 =? Z.of_nat (length (markers d))) d
                              (button_next d))
             (rendered_button (i <=? 0) d (button_prev d))
             (wrapper_outer_width d) (margin_left d) (margin_right d)
             (rendered_fragment i d) (url_gototab d).

Section Vocabulary.

Context {World : Type}.
Implicit Types (l : list (@Interceptor World)) (w : World) (s : @State World).

(** [allows l t w = Some w']: started in [w], no interceptor of [l] answers
    [false] on [t], and the host ends in [w']. *)
Fixpoint allows l (t : Target) w : option World :=
  match l with
  | [] => Some w
  | f :: rest =>
      if strictly_false (fst (f t w)) then None
      else allows rest t (snd (f t w))
  end.

(** How many interceptors of [l] get to run: up to and including the first
    that answers [false]. *)
Fixpoint invoked l (t : Target) w : nat :=
  match l with
  | [] => 0
  | f :: rest =>
      if strictly_false (fst (f t w)) then 1
      else S (invoked rest t (snd (f t w)))
  end.

(** [s'] differs from [s] in the document at most. *)
Definition document_only s s' : Prop := s' = with_doc (doc s') s.

(** The object [goTo] builds for the interceptors. *)
Definition targetContainer s (i : Z) : Target :=
  mkTarget i (attr_id (container_at s i)).

(** Lines 218-224 of [goTo]: the verdict of the before-interceptors, [true]
    when they are not consulted, and the state they leave. *)
Definition beforePhase s (i : Z) (ignoreInterceptors : bool) : bool * State :=
  if negb (current s =? i) && negb ignoreInterceptors
  then resolveInterceptors BeforeChange (targetContainer s i) s
  else (true, s).

(** The identifiers of the panels in [container], by position. *)
Definition panel_ids s : list (option string) :=
  map checkout_id (container s).

(** The navigator [s] once its collections are queried, over the document
    [d]. *)
Definition bound_navigator s (d : Document) : State :=
  mkState d true (current s) (beforeChange_list s) (afterChange_list s)
          (wired s) (world s) (trace s).


(** The panels whose identifier is [containerID], by position from [i]. *)
Fixpoint matching (containerID : string) (i : nat) (l : list Panel) : list nat :=
  match l with
  | [] => []
  | elem :: rest =>
      if attr_matches (checkout_id elem) containerID
      then i :: matching containerID (S i) rest
      else matching containerID (S i) rest
  end.

(** The statement of C4 as it is worded: in a transition that is made, all
    the after-interceptors are invoked, whatever they return. *)
Definition every_after_interceptor_runs s (i : Z) (ign : bool) : Prop :=
  current s <> i ->
  fst (beforePhase s i ign) = true ->
  trace (goTo i ign s) =
  trace (snd (beforePhase s i ign))
    ++ calls AfterChange (targetContainer s i) 0 (length (afterChange_list s)).



End Vocabulary.

(** * A three-step checkout used for the concrete runs *)

Definition demo_marker : Marker := mkMarker false false false [None] 10 0 0.

Definition demo_document : Document :=
  mkDocument [demo_marker; demo_marker; demo_marker]
             [mkPanel (Some "a"%string) true; mkPanel (Some "b"%string) true;
              mkPanel (Some "c"%string) true]
             (mkButton false 20 22 None) (mkButton false 30 32 None)
             200 1 2 ""%string None.


(** Vetoes the step ["c"], has no return statement otherwise; the host
    counts the invocations. *)
Definition veto_c : @Interceptor nat :=
  fun t n =>
    (match id t with
     | Some "c"%string => JsBool false
     | _ => JsUndefined
     end, S n).

Definition answer (v : JsValue) : @Interceptor nat := fun _ n => (v, S n).

(** The navigator as declared, before [init]. *)
Definition fresh (d : Document) (before after : list (@Interceptor nat))
    : @State nat :=
  mkState d false (-1) before after 0 0%nat [].

(** [demo] is [init] run on the three-step page, with three
    before-interceptors and one after-interceptor registered. *)
Definition demo : @State nat :=
  Eval vm_compute in
  init (fresh demo_document [answer (JsString "ok"); veto_c; answer JsNull]
              [answer (JsBool true)]).

(** Two after-interceptors, the first of which answers [false]. *)
Definition demo_after : @State nat :=
  Eval vm_compute in
  init (fresh demo_document [] [answer (JsBool false); answer JsUndefined]).

(** * The remaining handlers, and vocabulary for the properties of the
      whole service *)

Section Service.

Context {World : Type}.
Implicit Types (s : @State World).

(** The handlers of lines 82-89: the buttons call [next] and [previous]. *)
Definition on_buttonNext_click s : State := next s.
Definition on_buttonPrev_click s : State := previous s.

(** Lines 125-130: [sizeChange] runs the layout pass; [resize] runs it when
    the media size service reports the interval ["xs"]. *)
Definition on_sizeChange s : State := fillNavigation s.



(** A sequence of calls [goTo(i, ignoreInterceptors)]. *)
Definition goTo_all (requests : list (Z * bool)) s : State :=
  fold_left (fun st r => goTo (fst r) (snd r) st) requests s.

(** An interceptor that answers [false] to everything. *)
Definition veto_all : @Interceptor World := fun _ w => (JsBool false, w).

(** The navigator holds as many markers as panels, at least one, and
    [current] is -1 or the index of a step. *)
Definition steady s : Prop :=
  length (navigation s) = length (container s)
  /\ (0 < length (container s))%nat
  /\ -1 <= current s < Z.of_nat (length (container s)).

(** The three state classes of a marker. *)
Definition classes (m : Marker) : bool * bool * bool :=
  (cls_disabled m, cls_active m, cls_visited m).

End Service.



Section ServiceVocabulary.

Context {World : Type}.
Implicit Types (s : @State World).

(** The navigator [s] with other after-interceptors registered. *)
Definition with_afterChange (al : list (@Interceptor World)) s : State :=
  mkState (doc s) (bound s) (current s) (beforeChange_list s) al (wired s)
          (world s) (trace s).

End ServiceVocabulary.





(** A page on which two panels carry the identifier ["b"]. *)
Definition demo_twice_b : @State nat :=
  Eval vm_compute in
  init (fresh (mkDocument [demo_marker; demo_marker; demo_marker]
                 [mkPanel (Some "a"%string) true;
                  mkPanel (Some "b"%string) true;
                  mkPanel (Some "b"%string) true]
                 (mkButton false 20 22 None) (mkButton false 30 32 None)
                 200 1 2 ""%string None) [] []).

(** * Properties *)

#[global] Arguments goTo_update : simpl never.
#[global] Arguments fillNavigation : simpl never.
#[global] Arguments resolveInterceptors : simpl never.
#[global] Arguments goTo : simpl never.

(** Boolean comparisons on [Z] are turned into propositions before [lia]. *)
Ltac zbool :=
  repeat match goal with
    | H : (_ <? _) = true |- _ => apply Z.ltb_lt in H
    | H : (_ <? _) = false |- _ => apply Z.ltb_ge in H
    | H : (_ <=? _) = true |- _ => apply Z.leb_le in H
    | H : (_ <=? _) = false |- _ => apply Z.leb_gt in H
    | H : (_ =? _) = true |- _ => apply Z.eqb_eq in H
    | H : (_ =? _) = false |- _ => apply Z.eqb_neq in H
    | |- (_ <? _) = true => apply Z.ltb_lt
    | |- (_ <? _) = false => apply Z.ltb_ge
    | |- (_ <=? _) = true => apply Z.leb_le
    | |- (_ <=? _) = false => apply Z.leb_gt
    | |- (_ =? _) = true => apply Z.eqb_eq
    | |- (_ =? _) = false => apply Z.eqb_neq
    end.

Ltac zlia := zbool; lia.

(** ** What the interceptor phases do *)

Section Interceptors.

Context {World : Type}.
Implicit Types (l : list (@Interceptor World)) (w : World) (s : @State World).

Lemma calls_S k t i n : calls k t i (S n) = Called k i t :: calls k t (S i) n.
Proof. reflexivity. Qed.

Lemma calls_app k t i n m :
  calls k t i (n + m) = calls k t i n ++ calls k t (i + n) m.
Proof. unfold calls. by rewrite seq_app, map_app. Qed.

Lemma each_interceptor_trace k t l : forall i w tr,
  snd (snd (each_interceptor k t i l w tr)) = tr ++ calls k t i (invoked l t w).
Proof.
  induction l as [|f rest IH]; intros i w tr; simpl.
  - by rewrite app_nil_r.
  - destruct (f t w) as [v w'] eqn:E; simpl.
    destruct (strictly_false v); simpl; [done|].
    rewrite IH, calls_S. by rewrite <- app_assoc.
Qed.

Lemma each_interceptor_allows k t l : forall i w tr w',
  allows l t w = Some w' ->
  each_interceptor k t i l w tr = (true, (w', tr ++ calls k t i (length l))).
Proof.
  induction l as [|f rest IH]; intros i w tr w' H; simpl in *.
  - injection H as <-. by rewrite app_nil_r.
  - destruct (f t w) as [v w1] eqn:E; simpl in *.
    destruct (strictly_false v); [done|].
    rewrite (IH _ _ _ _ H), calls_S. by rewrite <- app_assoc.
Qed.

Lemma each_interceptor_app k t pre : forall rest i w tr w1,
  allows pre t w = Some w1 ->
  each_interceptor k t i (pre ++ rest) w tr =
  each_interceptor k t (i + length pre) rest w1
                   (tr ++ calls k t i (length pre)).
Proof.
  induction pre as [|f pre IH]; intros rest i w tr w1 H; simpl in *.
  - injection H as <-. by rewrite Nat.add_0_r, app_nil_r.
  - destruct (f t w) as [v w2] eqn:E; simpl in *.
    destruct (strictly_false v); [done|].
    rewrite (IH _ _ _ _ _ H), calls_S, <- app_assoc. simpl.
    by rewrite Nat.add_succ_r.
Qed.

Lemma each_interceptor_veto k t f post i w tr :
  strictly_false (fst (f t w)) = true ->
  each_interceptor k t i (f :: post) w tr =
  (false, (snd (f t w), tr ++ [Called k i t])).
Proof. intros H. simpl. destruct (f t w) as [v w']. simpl in *. by rewrite H. Qed.

Lemma invoked_allows l : forall t w w',
  allows l t w = Some w' -> invoked l t w = length l.
Proof.
  induction l as [|f rest IH]; intros t w w' H; simpl in *; [done|].
  destruct (strictly_false (fst (f t w))); [done|]. by rewrite (IH _ _ _ H).
Qed.

Lemma invoked_veto pre : forall f post t w w1,
  allows pre t w = Some w1 ->
  strictly_false (fst (f t w1)) = true ->
  invoked (pre ++ f :: post) t w = S (length pre).
Proof.
  induction pre as [|g pre IH]; intros f post t w w1 H Hf; simpl in *.
  - injection H as <-. by rewrite Hf.
  - destruct (strictly_false (fst (g t w))); [done|].
    by rewrite (IH _ _ _ _ _ H Hf).
Qed.

(** A list that does not let a target pass has a first interceptor that
    answers [false]. *)
Lemma allows_None_first l : forall t w,
  allows l t w = None ->
  exists pre f post w1,
    l = pre ++ f :: post
    /\ allows pre t w = Some w1
    /\ fst (f t w1) = JsBool false.
Proof.
  induction l as [|g rest IH]; intros t w H; simpl in H; [done|].
  destruct (strictly_false (fst (g t w))) eqn:E.
  - exists [], g, rest, w. repeat split.
    by destruct (fst (g t w)) as [| |[]| |].
  - destruct (IH _ _ H) as (pre & f & post & w1 & -> & Hpre & Hf).
    exists (g :: pre), f, post, w1. repeat split; [|done].
    simpl. by rewrite E.
Qed.

(** [resolveInterceptors] touches the host's world and the trace only. *)
Lemma resolveInterceptors_host k t s :
  snd (resolveInterceptors k t s) =
  with_host (world (snd (resolveInterceptors k t s)))
            (trace s ++ calls k t 0 (invoked (interceptors k s) t (world s))) s.
Proof.
  unfold resolveInterceptors.
  pose proof (each_interceptor_trace k t (interceptors k s) 0%nat (world s) (trace s)) as H.
  destruct (each_interceptor k t 0 (interceptors k s) (world s) (trace s))
    as [c [w tr]]; simpl in *.
  by rewrite H.
Qed.

End Interceptors.

(** ** The rendering steps leave the closure variables alone *)

Section Frame.

Context {World : Type}.
Implicit Types (s : @State World).

Lemma document_only_refl s : document_only s s.
Proof. by destruct s. Qed.

Lemma document_only_trans s1 s2 s3 :
  document_only s1 s2 -> document_only s2 s3 -> document_only s1 s3.
Proof. unfold document_only. intros H12 H23. rewrite H23 at 1. by rewrite H12. Qed.

Lemma document_only_with_doc d s : document_only s (with_doc d s).
Proof. reflexivity. Qed.

Lemma set_navigation_frame l s : document_only s (set_navigation l s).
Proof.
  unfold set_navigation. destruct (bound s);
    [apply document_only_with_doc | apply document_only_refl].
Qed.

Lemma set_container_frame l s : document_only s (set_container l s).
Proof.
  unfold set_container. destruct (bound s);
    [apply document_only_with_doc | apply document_only_refl].
Qed.

Lemma update_buttonNext_frame f s : document_only s (update_buttonNext f s).
Proof.
  unfold update_buttonNext. destruct (bound s);
    [apply document_only_with_doc | apply document_only_refl].
Qed.

Lemma update_buttonPrev_frame f s : document_only s (update_buttonPrev f s).
Proof.
  unfold update_buttonPrev. destruct (bound s);
    [apply document_only_with_doc | apply document_only_refl].
Qed.

Lemma set_location_hash_frame v s : document_only s (set_location_hash v s).
Proof. apply document_only_with_doc. Qed.

Lemma fillNavigation_frame s : document_only s (fillNavigation s).
Proof.
  unfold fillNavigation.
  destruct (Z.of_nat (length (navigation s)) <=? 0); [apply document_only_refl|].
  eapply document_only_trans; [apply update_buttonNext_frame|].
  eapply document_only_trans; [apply update_buttonPrev_frame|].
  apply set_navigation_frame.
Qed.

Lemma hide_container_frame s : document_only s (hide_container s).
Proof. apply set_container_frame. Qed.

Lemma refresh_navigation_frame s : document_only s (refresh_navigation s).
Proof. apply set_navigation_frame. Qed.

Lemma toggle_buttonPrev_frame s : document_only s (toggle_buttonPrev s).
Proof.
  unfold toggle_buttonPrev. destruct (current s <=? 0);
    apply update_buttonPrev_frame.
Qed.

Lemma toggle_buttonNext_frame s : document_only s (toggle_buttonNext s).
Proof.
  unfold toggle_buttonNext.
  destruct (current s + 1 =? Z.of_nat (length (navigation s)));
    apply update_buttonNext_frame.
Qed.

Lemma show_current_frame s : document_only s (show_current s).
Proof.
  unfold show_current. destruct (current s <? 0);
    [apply document_only_refl | apply set_container_frame].
Qed.

Lemma update_hash_frame s : document_only s (update_hash s).
Proof.
  unfold update_hash. destruct (0 <? current s);
    [apply set_location_hash_frame|].
  destruct (0 <? String.length (location_hash s))%nat;
    [apply set_location_hash_frame | apply document_only_refl].
Qed.

Lemma goTo_update_frame i s :
  document_only (with_current i s) (goTo_update i s).
Proof.
  unfold goTo_update. cbv zeta.
  eapply document_only_trans; [|apply update_hash_frame].
  eapply document_only_trans; [|apply show_current_frame].
  eapply document_only_trans; [|apply toggle_buttonNext_frame].
  eapply document_only_trans; [|apply toggle_buttonPrev_frame].
  eapply document_only_trans; [|apply fillNavigation_frame].
  eapply document_only_trans; [|apply refresh_navigation_frame].
  apply hide_container_frame.
Qed.

Lemma goTo_update_current i s : current (goTo_update i s) = i.
Proof. by rewrite (goTo_update_frame i s). Qed.

Lemma goTo_update_bound i s : bound (goTo_update i s) = bound s.
Proof. by rewrite (goTo_update_frame i s). Qed.

Lemma goTo_update_host i s :
  world (goTo_update i s) = world s /\ trace (goTo_update i s) = trace s.
Proof. by rewrite (goTo_update_frame i s). Qed.

Lemma goTo_update_interceptors i s :
  beforeChange_list (goTo_update i s) = beforeChange_list s
  /\ afterChange_list (goTo_update i s) = afterChange_list s.
Proof. by rewrite (goTo_update_frame i s). Qed.













End Frame.

(** ** The three phases of [goTo] *)

Section Phases.

Context {World : Type}.
Implicit Types (s : @State World) (i : Z).

Lemma goTo_phases s i ign :
  goTo i ign s =
  if fst (beforePhase s i ign) then
    if current s =? i then goTo_update i (snd (beforePhase s i ign))
    else snd (resolveInterceptors AfterChange (targetContainer s i)
                (goTo_update i (snd (beforePhase s i ign))))
  else snd (beforePhase s i ign).
Proof.
  unfold goTo, beforePhase. cbv zeta. fold (targetContainer s i).
  destruct (current s =? i); cbn [negb andb fst snd]; [reflexivity|].
  destruct ign; cbn [negb andb fst snd]; [reflexivity|].
  destruct (resolveInterceptors BeforeChange (targetContainer s i) s)
    as [[] s1]; cbn [negb fst snd]; reflexivity.
Qed.

Lemma resolveInterceptors_current k t s :
  current (snd (resolveInterceptors k t s)) = current s.
Proof. by rewrite resolveInterceptors_host. Qed.

Lemma resolveInterceptors_doc k t s :
  doc (snd (resolveInterceptors k t s)) = doc s.
Proof. by rewrite resolveInterceptors_host. Qed.

Lemma resolveInterceptors_bound k t s :
  bound (snd (resolveInterceptors k t s)) = bound s.
Proof. by rewrite resolveInterceptors_host. Qed.

Lemma beforePhase_frame s i ign :
  doc (snd (beforePhase s i ign)) = doc s
  /\ bound (snd (beforePhase s i ign)) = bound s
  /\ current (snd (beforePhase s i ign)) = current s
  /\ beforeChange_list (snd (beforePhase s i ign)) = beforeChange_list s
  /\ afterChange_list (snd (beforePhase s i ign)) = afterChange_list s.
Proof.
  unfold beforePhase.
  destruct (negb (current s =? i) && negb ign); [|done].
  by rewrite resolveInterceptors_host.
Qed.

Lemma beforePhase_vetoed s i pre f post w1 :
  current s <> i ->
  beforeChange_list s = pre ++ f :: post ->
  allows pre (targetContainer s i) (world s) = Some w1 ->
  strictly_false (fst (f (targetContainer s i) w1)) = true ->
  beforePhase s i false =
  (false,
   with_host (snd (f (targetContainer s i) w1))
             (trace s ++ calls BeforeChange (targetContainer s i) 0
                               (S (length pre))) s).
Proof.
  intros Hne Hl Hpre Hf. unfold beforePhase.
  assert ((current s =? i) = false) as -> by zlia. cbn [negb andb].
  unfold resolveInterceptors. cbn [interceptors]. rewrite Hl.
  rewrite (each_interceptor_app _ _ _ _ _ _ _ _ Hpre).
  rewrite (each_interceptor_veto _ _ _ _ _ _ _ Hf).
  rewrite <- app_assoc.
  replace (S (length pre)) with (length pre + 1)%nat by lia.
  by rewrite calls_app.
Qed.

Lemma beforePhase_allowed s i w1 :
  current s <> i ->
  allows (beforeChange_list s) (targetContainer s i) (world s) = Some w1 ->
  beforePhase s i false =
  (true,
   with_host w1
     (trace s ++ calls BeforeChange (targetContainer s i) 0
                       (length (beforeChange_list s))) s).
Proof.
  intros Hne Hall. unfold beforePhase.
  assert ((current s =? i) = false) as -> by zlia. cbn [negb andb].
  unfold resolveInterceptors. cbn [interceptors].
  by rewrite (each_interceptor_allows _ _ _ _ _ _ _ Hall).
Qed.

Lemma goTo_same s i ign :
  current s = i -> goTo i ign s = goTo_update i s.
Proof.
  intros H. rewrite goTo_phases. unfold beforePhase.
  by assert ((current s =? i) = true) as -> by zlia.
Qed.

Lemma goTo_current s i ign :
  fst (beforePhase s i ign) = true -> current (goTo i ign s) = i.
Proof.
  intros H. rewrite goTo_phases, H.
  destruct (current s =? i);
    by rewrite ?resolveInterceptors_current, goTo_update_current.
Qed.

Lemma goTo_doc s i ign :
  fst (beforePhase s i ign) = true ->
  doc (goTo i ign s) = doc (goTo_update i (snd (beforePhase s i ign))).
Proof.
  intros H. rewrite goTo_phases, H.
  destruct (current s =? i); by rewrite ?resolveInterceptors_doc.
Qed.

Lemma goTo_bound s i ign : bound (goTo i ign s) = bound s.
Proof.
  rewrite goTo_phases.
  destruct (beforePhase_frame s i ign) as (_ & Hb & _).
  destruct (fst (beforePhase s i ign)); [|done].
  destruct (current s =? i);
    by rewrite ?resolveInterceptors_bound, goTo_update_bound.
Qed.

(** C1. A call [goTo(i)] with [current !== i] and interceptors not ignored:
    - if the before-interceptors registered ahead of [f] all answer
      something other than [false] and [f] answers exactly [false], the
      call ends there: the state is the one before the call except for what
      the invoked interceptors did to their own world and for the trace,
      which gains the invocations of [pre] and [f], in registration order,
      and nothing else.  So [current] and the whole document (panels,
      markers, buttons, hash) are untouched, the interceptors registered
      after [f] are not invoked, and no after-interceptor is;
    - if every before-interceptor answers something other than [false]
      ([undefined] included), the update is made: [current] becomes [i],
      and the call is the after-phase run on the updated state.
    Only the boolean [false] counts as a veto ([strictly_false]), and the
    two cases are all there is: a list that does not let the target pass
    has a first interceptor answering [false]. *)
Theorem before_interceptor_false_aborts s i :
  current s <> i ->
  (forall v, strictly_false v = true <-> v = JsBool false)
  /\
  (forall pre f post w1,
     beforeChange_list s = pre ++ f :: post ->
     allows pre (targetContainer s i) (world s) = Some w1 ->
     fst (f (targetContainer s i) w1) = JsBool false ->
     goTo i false s =
       with_host (snd (f (targetContainer s i) w1))
         (trace s ++ calls BeforeChange (targetContainer s i) 0
                           (S (length pre))) s
     /\ current (goTo i false s) = current s
     /\ doc (goTo i false s) = doc s)
  /\
  (forall w1,
     allows (beforeChange_list s) (targetContainer s i) (world s) = Some w1 ->
     current (goTo i false s) = i
     /\ goTo i false s =
        snd (resolveInterceptors AfterChange (targetContainer s i)
               (goTo_update i
                  (with_host w1
                     (trace s ++ calls BeforeChange (targetContainer s i) 0
                                       (length (beforeChange_list s))) s))))
  /\
  (allows (beforeChange_list s) (targetContainer s i) (world s) = None ->
   exists pre f post w1,
     beforeChange_list s = pre ++ f :: post
     /\ allows pre (targetContainer s i) (world s) = Some w1
     /\ fst (f (targetContainer s i) w1) = JsBool false).
Proof.
  intros Hne. split; [|split; [|split]]; [| | |apply allows_None_first].
  - intros v. split; [|by intros ->].
    by destruct v as [| |[]| |].
  - intros pre f post w1 Hl Hpre Hf.
    assert (strictly_false (fst (f (targetContainer s i) w1)) = true) as Hv
      by (by rewrite Hf).
    rewrite goTo_phases, (beforePhase_vetoed s i pre f post w1 Hne Hl Hpre Hv).
    by repeat split.
  - intros w1 Hall. rewrite goTo_phases, (beforePhase_allowed s i w1 Hne Hall).
    cbn [fst snd]. assert ((current s =? i) = false) as -> by zlia.
    split; [|done].
    by rewrite resolveInterceptors_current, goTo_update_current.
Qed.


End Phases.

(** C1 at work: in [demo] (three steps, at step 0) the second of three
    before-interceptors vetoes step ["c"]; it lets step ["b"] pass. *)
Lemma before_interceptor_false_aborts_witness :
  current demo <> 2
  /\ goTo 2 false demo =
     with_host 6%nat
       (trace demo ++ [Called BeforeChange 0 (mkTarget 2 (Some "c"%string));
                       Called BeforeChange 1 (mkTarget 2 (Some "c"%string))])
       demo
  /\ current (goTo 1 false demo) = 1.
Proof.
  assert (H2 : current demo <> 2) by (vm_compute; discriminate).
  assert (H1 : current demo <> 1) by (vm_compute; discriminate).
  split; [exact H2|]. split.
  - exact (proj1 (proj1 (proj2 (before_interceptor_false_aborts demo 2 H2))
                    [answer (JsString "ok")] veto_c [answer JsNull] 5%nat
                    eq_refl eq_refl eq_refl)).
  - exact (proj1 (proj1 (proj2 (proj2
             (before_interceptor_false_aborts demo 1 H1))) 7%nat eq_refl)).
Defined.

Section AfterPhase.

Context {World : Type}.
Implicit Types (s : @State World) (i : Z).

(** C4, as the code has it.  In a transition that is made
    ([current !== i], no veto):
    - the after-interceptors run once the update is complete, on the target
      object;
    - they are invoked in registration order up to and including the first
      one that answers exactly [false], which ends the loop of
      [resolveInterceptors]: all of them when none answers [false], the
      interceptors [pre] and [f] only when [f] is the first to do so;
    - what they answer does not touch the transition: [current] is [i] and
      the document is the updated one. *)
Theorem after_interceptors_run_until_false s i ign :
  current s <> i ->
  fst (beforePhase s i ign) = true ->
  let s1 := snd (beforePhase s i ign) in
  let t := targetContainer s i in
  goTo i ign s = snd (resolveInterceptors AfterChange t (goTo_update i s1))
  /\ trace (goTo i ign s) =
     trace s1 ++ calls AfterChange t 0 (invoked (afterChange_list s) t (world s1))
  /\ (forall w', allows (afterChange_list s) t (world s1) = Some w' ->
        trace (goTo i ign s) =
        trace s1 ++ calls AfterChange t 0 (length (afterChange_list s)))
  /\ (forall pre f post w1,
        afterChange_list s = pre ++ f :: post ->
        allows pre t (world s1) = Some w1 ->
        fst (f t w1) = JsBool false ->
        trace (goTo i ign s) =
        trace s1 ++ calls AfterChange t 0 (S (length pre)))
  /\ current (goTo i ign s) = i
  /\ doc (goTo i ign s) = doc (goTo_update i s1).
Proof.
  intros Hne Hok. cbv zeta.
  set (s1 := snd (beforePhase s i ign)). set (t := targetContainer s i).
  assert (Hgo : goTo i ign s =
                snd (resolveInterceptors AfterChange t (goTo_update i s1))).
  { rewrite goTo_phases, Hok.
    by assert ((current s =? i) = false) as -> by zlia. }
  assert (Hal : afterChange_list s1 = afterChange_list s).
  { by destruct (beforePhase_frame s i ign) as (_ & _ & _ & _ & H). }
  assert (Htr : trace (goTo i ign s) =
                trace s1 ++ calls AfterChange t 0
                                  (invoked (afterChange_list s) t (world s1))).
  { rewrite Hgo, resolveInterceptors_host. cbn [trace with_host interceptors].
    destruct (goTo_update_host i s1) as [-> ->].
    destruct (goTo_update_interceptors i s1) as [_ ->].
    by rewrite Hal. }
  split; [exact Hgo|]. split; [exact Htr|]. split; [|split; [|split]].
  - intros w' Hall. by rewrite Htr, (invoked_allows _ _ _ _ Hall).
  - intros pre f post w1 Hl Hpre Hf. rewrite Htr, Hl.
    assert (Hv : strictly_false (fst (f t w1)) = true) by (by rewrite Hf).
    do 2 f_equal. exact (invoked_veto pre f post t (world s1) w1 Hpre Hv).
  - by apply goTo_current.
  - by apply goTo_doc.
Qed.

(** C7. [continueChange(target)] is [goTo(target.index, true)]: it asks no
    before-interceptor, whatever is registered and whatever it would answer,
    so no veto can stop it, and it ends with [current] at [target.index].
    The trace gains no before-invocation: only the after-interceptors run,
    and only if the step changes. *)
Theorem continueChange_reaches_target (target : Target) s :
  continueChange target s = goTo (index target) true s
  /\ fst (beforePhase s (index target) true) = true
  /\ current (continueChange target s) = index target
  /\ trace (continueChange target s) =
     trace s ++
     (if current s =? index target then []
      else calls AfterChange (targetContainer s (index target)) 0
             (invoked (afterChange_list s) (targetContainer s (index target))
                      (world s))).
Proof.
  assert (Hb : beforePhase s (index target) true = (true, s)).
  { unfold beforePhase. by rewrite andb_false_r. }
  split; [done|]. split; [by rewrite Hb|]. split.
  - apply goTo_current. by rewrite Hb.
  - unfold continueChange. rewrite goTo_phases, Hb. cbn [fst snd].
    destruct (current s =? index target).
    + destruct (goTo_update_host (index target) s) as [_ ->].
      by rewrite app_nil_r.
    + rewrite resolveInterceptors_host. cbn [trace with_host interceptors].
      destruct (goTo_update_host (index target) s) as [-> ->].
      by destruct (goTo_update_interceptors (index target) s) as [_ ->].
Qed.

(** C9. With [N] the number of markers: [next()] at the last index [N-1]
    returns without doing anything, and below it calls
    [goTo(current + 1)]; [previous()] at index 0 returns without doing
    anything, and above it calls [goTo(current - 1)]. *)
Theorem next_previous_at_the_ends s :
  (current s = Z.of_nat (length (navigation s)) - 1 -> next s = s)
  /\ (current s < Z.of_nat (length (navigation s)) - 1 ->
      next s = goTo (current s + 1) false s)
  /\ (current s = 0 -> previous s = s)
  /\ (0 < current s -> previous s = goTo (current s - 1) false s).
Proof.
  unfold next, previous. repeat split; intros H.
  - by assert ((current s <? Z.of_nat (length (navigation s)) - 1) = false)
      as -> by zlia.
  - by assert ((current s <? Z.of_nat (length (navigation s)) - 1) = true)
      as -> by zlia.
  - by assert ((0 <? current s) = false) as -> by zlia.
  - by assert ((0 <? current s) = true) as -> by zlia.
Qed.

End AfterPhase.

(** C4 as worded fails: in [demo_after] the first after-interceptor answers
    [false] and the second one is never invoked. *)
Lemma after_interceptor_false_stops_the_rest :
  ~ every_after_interceptor_runs demo_after 1 false.
Proof.
  intros H.
  assert (H1 : current demo_after <> 1) by (vm_compute; discriminate).
  specialize (H H1 eq_refl). vm_compute in H. discriminate.
Qed.

(** C4 at work in [demo_after]: one invocation, the transition stands. *)
Lemma after_interceptors_run_until_false_witness :
  current demo_after <> 1
  /\ fst (beforePhase demo_after 1 false) = true
  /\ trace (goTo 1 false demo_after) =
     trace demo_after ++ [Called AfterChange 0 (mkTarget 1 (Some "b"%string))]
  /\ current (goTo 1 false demo_after) = 1.
Proof.
  assert (H1 : current demo_after <> 1) by (vm_compute; discriminate).
  assert (H2 : fst (beforePhase demo_after 1 false) = true) by reflexivity.
  pose proof (after_interceptors_run_until_false demo_after 1 false H1 H2)
    as (_ & _ & _ & Hveto & Hcur & _).
  split; [exact H1|]. split; [exact H2|]. split; [|exact Hcur].
  assert (Hl : afterChange_list demo_after =
               [] ++ answer (JsBool false) :: [answer JsUndefined])
    by (vm_compute; reflexivity).
  assert (Hp : allows [] (targetContainer demo_after 1)
                 (world (snd (beforePhase demo_after 1 false))) = Some 1%nat)
    by (vm_compute; reflexivity).
  pose proof (Hveto [] (answer (JsBool false)) [answer JsUndefined] 1%nat
                    Hl Hp eq_refl) as H.
  vm_compute in H. vm_compute. exact H.
Defined.

(** C7 at work: in [demo] the step ["c"] is vetoed; [continueChange] with
    the vetoed target reaches it all the same. *)
Lemma continueChange_reaches_target_witness :
  current (goTo 2 false demo) = 0
  /\ current (continueChange (mkTarget 2 (Some "c"%string))
                             (goTo 2 false demo)) = 2.
Proof.
  split; [reflexivity|].
  exact (proj1 (proj2 (proj2
    (continueChange_reaches_target (mkTarget 2 (Some "c"%string))
                                   (goTo 2 false demo))))).
Defined.

(** C9 at work: [demo] is at step 0 of three, and forced to the last one. *)
Lemma next_previous_at_the_ends_witness :
  previous demo = demo
  /\ next demo = goTo 1 false demo
  /\ next (goTo 2 true demo) = goTo 2 true demo
  /\ previous (goTo 2 true demo) = goTo 1 false (goTo 2 true demo).
Proof.
  pose proof (next_previous_at_the_ends demo) as (_ & Hn & Hp & _).
  pose proof (next_previous_at_the_ends (goTo 2 true demo)) as (Hl & _ & _ & Hq).
  split; [apply Hp; reflexivity|].
  split; [apply Hn; vm_compute; reflexivity|].
  split; [apply Hl; vm_compute; reflexivity|].
  apply Hq; vm_compute; reflexivity.
Defined.

(** ** The layout pass *)

Section Layout.

Context {World : Type}.
Implicit Types (s : @State World) (l : list Marker).

Lemma spread_padding_length p l : forall d,
  length (spread_padding p d l) = length l.
Proof.
  induction l as [|m l IH]; intros d; simpl; [done|].
  destruct (0 <? d); simpl; destruct (0 <? _); simpl; by rewrite IH.
Qed.

(** One round of the loop, and the leftover it passes on. *)
Lemma spread_padding_cons p d m l :
  spread_padding p d (m :: l) =
  set_padding (p + leftover_pixel 0 d) (p + leftover_pixel 1 d) m
    :: spread_padding p (if 2 <=? d then d - 2 else if 0 <? d then 0 else d) l.
Proof.
  cbn [spread_padding]. unfold leftover_pixel.
  destruct (0 <? d) eqn:E0.
  - destruct (0 <? d - 1) eqn:E1.
    + assert ((1 <? d) = true) as -> by zlia.
      assert ((2 <=? d) = true) as -> by zlia.
      do 2 f_equal. lia.
    + assert ((1 <? d) = false) as -> by zlia.
      assert ((2 <=? d) = false) as -> by zlia.
      rewrite Z.add_0_r. do 2 f_equal. lia.
  - rewrite E0.
    assert ((1 <? d) = false) as -> by zlia.
    assert ((2 <=? d) = false) as -> by zlia.
    by rewrite !Z.add_0_r.
Qed.

(** The loop in closed form: what the marker at position [k] receives. *)
Lemma spread_padding_lookup p l : forall d k m,
  spread_padding p d l !! k = Some m ->
  exists m0, l !! k = Some m0
    /\ m = set_padding (p + leftover_pixel (2 * Z.of_nat k) d)
                       (p + leftover_pixel (2 * Z.of_nat k + 1) d) m0.
Proof.
  induction l as [|m0 l IH]; intros d k m H; [done|].
  rewrite spread_padding_cons in H.
  destruct k as [|k].
  - injection H as <-. by exists m0.
  - cbn [lookup list_lookup] in H.
    destruct (IH _ _ _ H) as (m1 & Hm1 & ->).
    exists m1. split; [done|].
    unfold leftover_pixel. rewrite Nat2Z.inj_succ, <- Z.add_1_r.
    destruct (2 <=? d) eqn:E2; [|destruct (0 <? d) eqn:E0].
    + f_equal; f_equal;
        match goal with
        | |- (if ?a then _ else _) = (if ?b then _ else _) =>
            destruct a eqn:Ea;
            [assert (b = true) as -> by zlia | assert (b = false) as -> by zlia];
            reflexivity
        end.
    + f_equal; f_equal;
        match goal with
        | |- (if ?a then _ else _) = (if ?b then _ else _) =>
            assert (a = false) as -> by zlia;
            assert (b = false) as -> by zlia; reflexivity
        end.
    + f_equal; f_equal;
        match goal with
        | |- (if ?a then _ else _) = (if ?b then _ else _) =>
            assert (a = false) as -> by zlia;
            assert (b = false) as -> by zlia; reflexivity
        end.
Qed.


Lemma navigation_set_navigation l s :
  navigation (set_navigation l s) = if bound s then l else [].
Proof. by destruct s as [d [] c0 bl al n w tr]. Qed.

Lemma navigation_update_buttonNext f s :
  navigation (update_buttonNext f s) = navigation s.
Proof. by destruct s as [d [] c0 bl al n w tr]. Qed.

Lemma navigation_update_buttonPrev f s :
  navigation (update_buttonPrev f s) = navigation s.
Proof. by destruct s as [d [] c0 bl al n w tr]. Qed.

Lemma navigation_set_container c s :
  navigation (set_container c s) = navigation s.
Proof. by destruct s as [d [] c0 bl al n w tr]. Qed.

Lemma navigation_set_location_hash v s :
  navigation (set_location_hash v s) = navigation s.
Proof. reflexivity. Qed.

Lemma navigation_nonempty_bound s : navigation s <> [] -> bound s = true.
Proof. unfold navigation. by destruct (bound s). Qed.

Lemma navigation_fillNavigation s :
  navigation (fillNavigation s) =
  let n := Z.of_nat (length (navigation s)) in
  let padding := parseInt_div (remaining_width s) (n * 2) in
  spread_padding padding (remaining_width s - n * padding * 2) (navigation s).
Proof.
  unfold fillNavigation. cbv zeta.
  destruct (Z.of_nat (length (navigation s)) <=? 0) eqn:E.
  - destruct (navigation s); [done|].
    cbn [length] in E. rewrite Nat2Z.inj_succ, <- Z.add_1_r in E. zlia.
  - rewrite navigation_set_navigation.
    rewrite !navigation_update_buttonPrev, !navigation_update_buttonNext.
    assert (bound s = true) as Hb.
    { apply navigation_nonempty_bound. intros H. rewrite H in E. done. }
    destruct s as [d b c0 bl al n w tr]. simpl in Hb. by subst b.
Qed.


End Layout.


(** ** What the update shows *)

Section Rendering.

Context {World : Type}.
Implicit Types (s : @State World) (i : Z).

Lemma navigation_ext s s' :
  doc s = doc s' -> bound s = bound s' -> navigation s = navigation s'.
Proof. unfold navigation. by intros -> ->. Qed.

Lemma container_ext s s' :
  doc s = doc s' -> bound s = bound s' -> container s = container s'.
Proof. unfold container. by intros -> ->. Qed.

Lemma container_set_container c s :
  container (set_container c s) = if bound s then c else [].
Proof. by destruct s as [d [] c0 bl al n w tr]. Qed.

Lemma container_set_navigation l s :
  container (set_navigation l s) = container s.
Proof. by destruct s as [d [] c0 bl al n w tr]. Qed.

Lemma container_update_buttonNext f s :
  container (update_buttonNext f s) = container s.
Proof. by destruct s as [d [] c0 bl al n w tr]. Qed.

Lemma container_update_buttonPrev f s :
  container (update_buttonPrev f s) = container s.
Proof. by destruct s as [d [] c0 bl al n w tr]. Qed.

Lemma container_fillNavigation s :
  container (fillNavigation s) = container s.
Proof.
  unfold fillNavigation. destruct (_ <=? 0); [done|]. cbv zeta.
  by rewrite container_set_navigation, container_update_buttonPrev,
    container_update_buttonNext.
Qed.

Lemma container_unbound s : bound s = false -> container s = [].
Proof. unfold container. by intros ->. Qed.

Lemma panel_ids_hide_container s :
  panel_ids (hide_container s) = panel_ids s.
Proof.
  unfold panel_ids, hide_container. rewrite container_set_container.
  destruct (bound s) eqn:E; [|by rewrite (container_unbound s E)].
  rewrite map_map. by apply map_ext.
Qed.

Lemma panel_ids_show_current s :
  panel_ids (show_current s) = panel_ids s.
Proof.
  unfold panel_ids, show_current. destruct (current s <? 0); [done|].
  rewrite container_set_container.
  destruct (bound s) eqn:E; [|by rewrite (container_unbound s E)].
  change (checkout_id <$> alter show (Z.to_nat (current s)) (container s)
          = checkout_id <$> container s).
  rewrite (list_fmap_alter checkout_id show (fun x => x)).
  - by apply list_alter_id.
  - by apply Forall_forall.
Qed.

Lemma panel_ids_update_hash s : panel_ids (update_hash s) = panel_ids s.
Proof.
  unfold update_hash. destruct (0 <? current s); [done|].
  by destruct (0 <? String.length (location_hash s))%nat.
Qed.

Lemma panel_ids_toggle_buttonNext s :
  panel_ids (toggle_buttonNext s) = panel_ids s.
Proof.
  unfold panel_ids, toggle_buttonNext.
  destruct (_ =? _); by rewrite container_update_buttonNext.
Qed.

Lemma panel_ids_toggle_buttonPrev s :
  panel_ids (toggle_buttonPrev s) = panel_ids s.
Proof.
  unfold panel_ids, toggle_buttonPrev.
  destruct (_ <=? _); by rewrite container_update_buttonPrev.
Qed.

Lemma panel_ids_goTo_update i s : panel_ids (goTo_update i s) = panel_ids s.
Proof.
  unfold goTo_update. cbv zeta.
  rewrite panel_ids_update_hash, panel_ids_show_current,
    panel_ids_toggle_buttonNext, panel_ids_toggle_buttonPrev.
  unfold panel_ids at 1. rewrite container_fillNavigation.
  unfold refresh_navigation. rewrite container_set_navigation.
  fold (panel_ids (hide_container (with_current i s))).
  by rewrite panel_ids_hide_container.
Qed.

Lemma panel_ids_goTo i ign s : panel_ids (goTo i ign s) = panel_ids s.
Proof.
  rewrite goTo_phases.
  destruct (beforePhase_frame s i ign) as (Hd & Hb & _).
  assert (Hp : panel_ids (snd (beforePhase s i ign)) = panel_ids s).
  { unfold panel_ids. by rewrite (container_ext _ s Hd Hb). }
  destruct (fst (beforePhase s i ign)); [|done].
  destruct (current s =? i).
  - by rewrite panel_ids_goTo_update.
  - rewrite <- Hp, <- (panel_ids_goTo_update i (snd (beforePhase s i ign))).
    unfold panel_ids. f_equal. apply container_ext.
    + apply resolveInterceptors_doc.
    + apply resolveInterceptors_bound.
Qed.

(** The identifier read at position [i] depends on the identifiers only. *)
Lemma attr_id_panel_ids s i :
  attr_id (container_at s i) =
  if i <? 0 then None else mjoin (panel_ids s !! Z.to_nat i).
Proof.
  unfold container_at, panel_ids. destruct (i <? 0); [done|].
  change (map checkout_id (container s)) with (checkout_id <$> container s).
  rewrite list_lookup_fmap. by destruct (container s !! Z.to_nat i).
Qed.

(** C2. For a valid index [i], after a call [goTo(i)] that is not vetoed,
    [getCurrentContainer()] returns [{id: ..., index: i}] with the
    identifier attribute of panel [i]. *)
Theorem getCurrentContainer_after_goTo s i ign :
  0 <= i < Z.of_nat (length (container s)) ->
  fst (beforePhase s i ign) = true ->
  exists panel,
    container s !! Z.to_nat i = Some panel
    /\ getCurrentContainer (goTo i ign s) =
       Some (mkTarget i (checkout_id panel)).
Proof.
  intros Hi Hok.
  destruct (lookup_lt_is_Some_2 (container s) (Z.to_nat i) ltac:(lia))
    as [panel Hp].
  exists panel. split; [done|].
  unfold getCurrentContainer. rewrite (goTo_current s i ign Hok).
  assert ((0 <=? i) = true) as -> by zlia.
  rewrite attr_id_panel_ids, panel_ids_goTo, <- attr_id_panel_ids.
  unfold container_at. assert ((i <? 0) = false) as -> by zlia.
  by rewrite Hp.
Qed.

End Rendering.

(** C2 at work: [demo] forced to its last step. *)
Lemma getCurrentContainer_after_goTo_witness :
  getCurrentContainer (goTo 2 true demo) = Some (mkTarget 2 (Some "c"%string)).
Proof.
  destruct (getCurrentContainer_after_goTo demo 2 true
              ltac:(vm_compute; split; [discriminate | reflexivity]) eq_refl)
    as (panel & Hp & Hg).
  vm_compute in Hp. injection Hp as <-. exact Hg.
Defined.

(** ** The marker classes after a transition *)

Section Markers.

Context {World : Type}.
Implicit Types (s : @State World) (i : Z).

Lemma navigation_hide_container s :
  navigation (hide_container s) = navigation s.
Proof. apply navigation_set_container. Qed.

Lemma navigation_refresh_navigation s :
  navigation (refresh_navigation s) =
  imap (refresh_marker (current s)) (navigation s).
Proof.
  unfold refresh_navigation. rewrite navigation_set_navigation.
  unfold navigation. by destruct (bound s).
Qed.

Lemma navigation_toggle_buttonPrev s :
  navigation (toggle_buttonPrev s) = navigation s.
Proof.
  unfold toggle_buttonPrev.
  destruct (_ <=? _); apply navigation_update_buttonPrev.
Qed.

Lemma navigation_toggle_buttonNext s :
  navigation (toggle_buttonNext s) = navigation s.
Proof.
  unfold toggle_buttonNext.
  destruct (_ =? _); apply navigation_update_buttonNext.
Qed.

Lemma navigation_show_current s : navigation (show_current s) = navigation s.
Proof.
  unfold show_current. destruct (_ <? _); [done|].
  apply navigation_set_container.
Qed.

Lemma navigation_update_hash s : navigation (update_hash s) = navigation s.
Proof.
  unfold update_hash. destruct (0 <? current s); [done|].
  by destruct (0 <? String.length (location_hash s))%nat.
Qed.

(** After the update the markers are the refreshed ones, padded. *)
Lemma navigation_goTo_update i s :
  exists padding diff,
    navigation (goTo_update i s) =
    spread_padding padding diff (imap (refresh_marker i) (navigation s)).
Proof.
  unfold goTo_update. cbv zeta.
  rewrite navigation_update_hash, navigation_show_current,
    navigation_toggle_buttonNext, navigation_toggle_buttonPrev,
    navigation_fillNavigation. cbv zeta.
  rewrite navigation_refresh_navigation, navigation_hide_container.
  change (current (hide_container (with_current i s))) with
    (current (set_container (map hide (container (with_current i s)))
                            (with_current i s))).
  assert (current (set_container (map hide (container (with_current i s)))
                                 (with_current i s)) = i) as ->.
  { by rewrite (set_container_frame _ (with_current i s)). }
  change (navigation (with_current i s)) with (navigation s).
  eauto.
Qed.

Lemma navigation_goTo i ign s :
  fst (beforePhase s i ign) = true ->
  navigation (goTo i ign s) =
  navigation (goTo_update i (snd (beforePhase s i ign))).
Proof.
  intros Hok. apply navigation_ext.
  - by apply goTo_doc.
  - rewrite goTo_bound, goTo_update_bound.
    by destruct (beforePhase_frame s i ign) as (_ & -> & _).
Qed.

Lemma navigation_goTo_lookup i ign s k m :
  fst (beforePhase s i ign) = true ->
  navigation (goTo i ign s) !! k = Some m ->
  exists m0 l r,
    navigation s !! k = Some m0
    /\ m = set_padding l r (refresh_marker i k m0).
Proof.
  intros Hok Hk. rewrite (navigation_goTo i ign s Hok) in Hk.
  destruct (navigation_goTo_update i (snd (beforePhase s i ign)))
    as (p & d & Hn).
  rewrite Hn in Hk.
  destruct (spread_padding_lookup _ _ _ _ _ Hk) as (m1 & Hm1 & ->).
  apply list_lookup_imap_Some in Hm1 as (m0 & Hm0 & ->).
  eexists m0, _, _. split; [|reflexivity].
  destruct (beforePhase_frame s i ign) as (Hd & Hb & _).
  by rewrite <- (navigation_ext _ s Hd Hb).
Qed.

Lemma navigation_goTo_length i ign s :
  fst (beforePhase s i ign) = true ->
  length (navigation (goTo i ign s)) = length (navigation s).
Proof.
  intros Hok. rewrite (navigation_goTo i ign s Hok).
  destruct (navigation_goTo_update i (snd (beforePhase s i ign)))
    as (p & d & ->).
  rewrite spread_padding_length, length_imap.
  destruct (beforePhase_frame s i ign) as (Hd & Hb & _).
  by rewrite (navigation_ext _ s Hd Hb).
Qed.

Lemma refresh_marker_active i k m :
  hasClass Active (refresh_marker i k m) = (Z.of_nat k =? i).
Proof.
  unfold refresh_marker.
  destruct (Z.of_nat k <? i) eqn:E1; [simpl; lia|].
  destruct (Z.of_nat k =? i) eqn:E2; [done|].
  by destruct (_ && _).
Qed.

Lemma refresh_marker_visited_below i k m :
  Z.of_nat k <= i -> hasClass Visited (refresh_marker i k m) = true.
Proof.
  intros H. unfold refresh_marker.
  destruct (Z.of_nat k <? i) eqn:E1; [done|].
  by assert ((Z.of_nat k =? i) = true) as -> by zlia.
Qed.

Lemma refresh_marker_disabled_above i k m :
  i < Z.of_nat k ->
  hasClass Disabled (refresh_marker i k m) = negb (hasClass Visited m).
Proof.
  intros H. unfold refresh_marker.
  assert ((Z.of_nat k <? i) = false) as -> by zlia.
  assert ((Z.of_nat k =? i) = false) as -> by zlia.
  assert ((i <? Z.of_nat k) = true) as -> by zlia.
  simpl. by destruct (cls_visited m).
Qed.

(** C3. After a transition to a valid index [i] that is made (no veto):
    the marker at [i], and no other, has the class [active]; every marker
    below [i] has the class [visited]; every marker above [i] that did not
    carry [visited] yet has the class [disabled]. *)
Theorem marker_statuses_after_goTo s i ign :
  0 <= i < Z.of_nat (length (navigation s)) ->
  fst (beforePhase s i ign) = true ->
  (exists m, navigation (goTo i ign s) !! Z.to_nat i = Some m
             /\ hasClass Active m = true)
  /\ (forall k m, navigation (goTo i ign s) !! k = Some m ->
        hasClass Active m = true -> Z.of_nat k = i)
  /\ (forall k m, navigation (goTo i ign s) !! k = Some m ->
        Z.of_nat k < i -> hasClass Visited m = true)
  /\ (forall k m0 m,
        navigation s !! k = Some m0 ->
        navigation (goTo i ign s) !! k = Some m ->
        i < Z.of_nat k ->
        hasClass Visited m0 = false ->
        hasClass Disabled m = true).
Proof.
  intros Hi Hok. repeat split.
  - destruct (lookup_lt_is_Some_2 (navigation (goTo i ign s)) (Z.to_nat i))
      as [m Hm].
    { rewrite (navigation_goTo_length i ign s Hok). lia. }
    exists m. split; [done|].
    destruct (navigation_goTo_lookup i ign s _ _ Hok Hm) as (m0 & l & r & _ & ->).
    change (hasClass Active (refresh_marker i (Z.to_nat i) m0) = true).
    rewrite refresh_marker_active. zlia.
  - intros k m Hm Hact.
    destruct (navigation_goTo_lookup i ign s _ _ Hok Hm) as (m0 & l & r & _ & ->).
    change (hasClass Active (refresh_marker i k m0) = true) in Hact.
    rewrite refresh_marker_active in Hact. zlia.
  - intros k m Hm Hlt.
    destruct (navigation_goTo_lookup i ign s _ _ Hok Hm) as (m0 & l & r & _ & ->).
    change (hasClass Visited (refresh_marker i k m0) = true).
    apply refresh_marker_visited_below. lia.
  - intros k m0 m Hm0 Hm Hgt Hnv.
    destruct (navigation_goTo_lookup i ign s _ _ Hok Hm)
      as (m1 & l & r & Hm1 & ->).
    assert (m1 = m0) as -> by congruence.
    change (hasClass Disabled (refresh_marker i k m0) = true).
    by rewrite refresh_marker_disabled_above, Hnv.
Qed.

End Markers.

(** C3 at work: [demo] forced from step 0 to step 1 of three. *)
Lemma marker_statuses_after_goTo_witness :
  map (fun m => (hasClass Disabled m, hasClass Active m, hasClass Visited m))
      (navigation (goTo 1 true demo))
  = [(false, false, true); (false, true, true); (true, false, false)]
  /\ (forall k m, navigation (goTo 1 true demo) !! k = Some m ->
        hasClass Active m = true -> Z.of_nat k = 1).
Proof.
  split; [reflexivity|].
  exact (proj1 (proj2 (marker_statuses_after_goTo demo 1 true
                         ltac:(vm_compute; split; [discriminate | reflexivity]) eq_refl))).
Defined.

(** ** Navigation by identifier *)

Section ByIdentifier.

Context {World : Type}.
Implicit Types (s : @State World).

Lemma each_container_matching containerID l : forall i s,
  each_container containerID i l s =
  fold_left (fun st k => goTo (Z.of_nat k) false st)
            (matching containerID i l) s.
Proof.
  induction l as [|elem rest IH]; intros i s; [done|].
  cbn [each_container matching].
  destruct (attr_matches (checkout_id elem) containerID); by rewrite IH.
Qed.

Lemma attr_matches_spec a containerID :
  attr_matches a containerID = true <-> a = Some containerID.
Proof.
  destruct a as [x|]; simpl; [|done].
  rewrite String.eqb_eq. split; congruence.
Qed.

(** [matching] lists the positions of the panels that carry the
    identifier. *)
Lemma elem_of_matching containerID l : forall i k,
  k ∈ matching containerID i l <->
  exists p, (i <= k)%nat /\ l !! (k - i)%nat = Some p
            /\ checkout_id p = Some containerID.
Proof.
  induction l as [|elem rest IH]; intros i k; cbn [matching].
  - split; [by intros ?%elem_of_nil | by intros (p & _ & ? & _)].
  - assert (Hrest : k ∈ matching containerID (S i) rest <->
                    exists p, (i < k)%nat /\ rest !! (k - S i)%nat = Some p
                              /\ checkout_id p = Some containerID).
    { rewrite IH. split; intros (p & ? & ? & ?); exists p; repeat split;
        (done || lia). }
    assert (Hhere : forall p, (i <= k)%nat ->
              ((elem :: rest) !! (k - i)%nat = Some p <->
               (k = i /\ p = elem) \/ ((i < k)%nat /\ rest !! (k - S i)%nat = Some p))).
    { intros p Hik. destruct (decide (k = i)) as [->|Hne].
      - rewrite Nat.sub_diag. simpl. split.
        + intros [= <-]. by left.
        + intros [[_ ->]|[? _]]; [done|lia].
      - replace (k - i)%nat with (S (k - S i)) by lia. simpl. split.
        + intros ?. right. split; [lia|done].
        + intros [[? _]|[_ ?]]; [lia|done]. }
    destruct (attr_matches (checkout_id elem) containerID) eqn:E.
    + apply attr_matches_spec in E. rewrite elem_of_cons, Hrest. split.
      * intros [->|(p & ? & ? & ?)].
        -- exists elem. split; [lia|]. split; [|done].
           apply Hhere; [lia|]. by left.
        -- exists p. split; [lia|]. split; [|done].
           apply Hhere; [lia|]. by right.
      * intros (p & Hik & Hp & Hid). apply Hhere in Hp; [|done].
        destruct Hp as [[-> ->]|[? ?]]; [by left|].
        right. by exists p.
    + rewrite Hrest. split.
      * intros (p & ? & ? & ?). exists p. split; [lia|]. split; [|done].
        apply Hhere; [lia|]. by right.
      * intros (p & Hik & Hp & Hid). apply Hhere in Hp; [|done].
        destruct Hp as [[-> ->]|[? ?]]; [|by exists p].
        apply attr_matches_spec in Hid. congruence.
Qed.

Lemma goToID_other s containerID :
  containerID <> "next"%string -> containerID <> "prev"%string ->
  goToID containerID s =
  (false, fold_left (fun st k => goTo (Z.of_nat k) false st)
                    (matching (replace_hash containerID) 0 (container s)) s).
Proof.
  intros Hn Hp. unfold goToID.
  apply String.eqb_neq in Hn, Hp. rewrite Hn, Hp.
  by rewrite each_container_matching.
Qed.

(** C5. [goToID("next")] is [next()] and returns [true]; [goToID("prev")]
    is [previous()] and returns [true].  For any other identifier the first
    [#] is removed and [goTo(k)] is called for every panel [k] that carries
    the identifier, in index order, but the function returns [false] in all
    cases: when no panel matches (and then nothing changes) as well as when
    one does (the [return true] of the callback is not the function's). *)
Theorem goToID_returns s :
  goToID "next" s = (true, next s)
  /\ goToID "prev" s = (true, previous s)
  /\ (forall containerID,
        containerID <> "next"%string -> containerID <> "prev"%string ->
        let found := matching (replace_hash containerID) 0 (container s) in
        fst (goToID containerID s) = false
        /\ snd (goToID containerID s) =
           fold_left (fun st k => goTo (Z.of_nat k) false st) found s
        /\ (forall k, k ∈ found <->
              exists p, container s !! k = Some p
                        /\ checkout_id p = Some (replace_hash containerID))
        /\ (found = [] -> goToID containerID s = (false, s))
        /\ (forall k, found = [k] ->
              goToID containerID s = (false, goTo (Z.of_nat k) false s))).
Proof.
  split; [done|]. split; [done|].
  intros containerID Hn Hp found.
  rewrite (goToID_other s containerID Hn Hp). fold found. split; [done|]. split; [done|]. split; [|split].
  - intros k. unfold found. rewrite elem_of_matching.
    rewrite Nat.sub_0_r. split.
    + intros (p & _ & ? & ?). by exists p.
    + intros (p & ? & ?). exists p. split; [lia|done].
  - by intros ->.
  - by intros k ->.
Qed.

End ByIdentifier.

(** C5 at work in [demo]: the fragment [#b] finds panel 1, [#zzz] finds
    none; both calls return [false]. *)
Lemma goToID_returns_witness :
  goToID "#b" demo = (false, goTo 1 false demo)
  /\ goToID "#zzz" demo = (false, demo).
Proof.
  pose proof (goToID_returns demo) as (_ & _ & H).
  split.
  - exact (proj2 (proj2 (proj2 (proj2
      (H "#b"%string ltac:(discriminate) ltac:(discriminate))))) 1%nat eq_refl).
  - exact (proj1 (proj2 (proj2 (proj2
      (H "#zzz"%string ltac:(discriminate) ltac:(discriminate))))) eq_refl).
Defined.

(** ** Malformed markup *)

Section Malformed.

Context {World : Type}.
Implicit Types (s : @State World).



End Malformed.



(** ** Showing the same step again *)

Lemma fold_left_labels (l l' : list Marker) : forall a,
  map label_width l = map label_width l' ->
  fold_left (fun width elem => width - label_width elem) l a =
  fold_left (fun width elem => width - label_width elem) l' a.
Proof.
  revert l'. induction l as [|m l IH]; intros [|m' l'] a H; try done.
  injection H as Hm Hl. cbn [fold_left]. rewrite Hm. by apply IH.
Qed.

Lemma measures_widths d d' :
  measures d = measures d' ->
  document_buttonWidth d = document_buttonWidth d'
  /\ document_remaining_width d = document_remaining_width d'
  /\ length (markers d) = length (markers d').
Proof.
  unfold measures. intros [= Hl Hp Hn Hpm Hnm Hw Hml Hmr].
  assert (Hb : document_buttonWidth d = document_buttonWidth d').
  { unfold document_buttonWidth. by rewrite Hp, Hn, Hpm, Hnm. }
  split; [done|]. split.
  - unfold document_remaining_width. rewrite Hb, Hw, Hml, Hmr.
    by apply fold_left_labels.
  - by rewrite <- (length_map label_width (markers d)), Hl, length_map.
Qed.

Lemma label_width_refresh_marker i k m :
  label_width (refresh_marker i k m) = label_width m.
Proof.
  unfold refresh_marker.
  destruct (_ <? _); [done|]. destruct (_ =? _); [done|].
  by destruct (_ && _).
Qed.

Lemma labels_refresh i (l : list Marker) :
  map label_width (imap (refresh_marker i) l) = map label_width l.
Proof.
  apply list_eq. intros k.
  change (map label_width ?x) with (label_width <$> x).
  rewrite !list_lookup_fmap, list_lookup_imap.
  destruct (l !! k); [|done]. simpl. by rewrite label_width_refresh_marker.
Qed.



Section Idem.
Context {World : Type}.
Implicit Types (s : @State World) (d : Document).

Section Steps.

Variable nav : @State World.

Lemma hide_container_over d :
  hide_container (bound_navigator nav d) =
  bound_navigator nav (with_panels (map hide (panels d)) d).
Proof. reflexivity. Qed.

Lemma refresh_navigation_over d :
  refresh_navigation (bound_navigator nav d) =
  bound_navigator nav
    (with_markers (imap (refresh_marker (current nav)) (markers d)) d).
Proof. reflexivity. Qed.

Lemma fillNavigation_over d :
  fillNavigation (bound_navigator nav d) =
  bound_navigator nav
    (if Z.of_nat (length (markers d)) <=? 0 then d
     else
       let m := Z.of_nat (length (markers d)) in
       let padding := parseInt_div (document_remaining_width d) (m * 2) in
       let diff := document_remaining_width d - m * padding * 2 in
       with_markers (spread_padding padding diff (markers d))
         (with_button_prev
            (set_width (Some (document_buttonWidth d)) (button_prev d))
            (with_button_next
               (set_width (Some (document_buttonWidth d)) (button_next d))
               d))).
Proof.
  unfold fillNavigation.
  change (navigation (bound_navigator nav d)) with (markers d).
  destruct (Z.of_nat (length (markers d)) <=? 0); reflexivity.
Qed.

Lemma toggle_buttonPrev_over d :
  toggle_buttonPrev (bound_navigator nav d) =
  bound_navigator nav
    (with_button_prev (set_disabled (current nav <=? 0) (button_prev d)) d).
Proof.
  unfold toggle_buttonPrev.
  change (current (bound_navigator nav d)) with (current nav).
  destruct (current nav <=? 0); reflexivity.
Qed.

Lemma toggle_buttonNext_over d :
  toggle_buttonNext (bound_navigator nav d) =
  bound_navigator nav
    (with_button_next
       (set_disabled (current nav + 1 =? Z.of_nat (length (markers d)))
                     (button_next d)) d).
Proof.
  unfold toggle_buttonNext.
  change (current (bound_navigator nav d)) with (current nav).
  change (navigation (bound_navigator nav d)) with (markers d).
  destruct (current nav + 1 =? Z.of_nat (length (markers d))); reflexivity.
Qed.

Lemma show_current_over d :
  show_current (bound_navigator nav d) =
  bound_navigator nav
    (if current nav <? 0 then d
     else with_panels (alter show (Z.to_nat (current nav)) (panels d)) d).
Proof.
  unfold show_current.
  change (current (bound_navigator nav d)) with (current nav).
  destruct (current nav <? 0); reflexivity.
Qed.

Lemma update_hash_over d :
  update_hash (bound_navigator nav d) =
  bound_navigator nav
    (if 0 <? current nav then
       with_fragment
         (hash_fragment
            (attr_id (if current nav <? 0 then None
                      else panels d !! Z.to_nat (current nav)))) d
     else if (0 <? String.length
                     (if String.eqb (fragment d) "" then ""%string
                      else String "#"%char (fragment d)))%nat
     then with_fragment (hash_fragment (Some ""%string)) d
     else d).
Proof.
  unfold update_hash.
  change (current (bound_navigator nav d)) with (current nav).
  destruct (0 <? current nav); [reflexivity|].
  change (location_hash (bound_navigator nav d))
    with (if String.eqb (fragment d) "" then ""%string
          else String "#"%char (fragment d)).
  destruct (0 <? String.length _)%nat; reflexivity.
Qed.

End Steps.

Lemma goTo_update_rendered i d c (bl al : list (@Interceptor World)) n w tr :
  goTo_update i (mkState d true c bl al n w tr) =
  mkState (rendered i d) true i bl al n w tr.
Proof.
  unfold goTo_update. cbv zeta.
  change (with_current i (mkState d true c bl al n w tr))
    with (bound_navigator (mkState d true i bl al n w tr) d).
  change (mkState (rendered i d) true i bl al n w tr)
    with (bound_navigator (mkState d true i bl al n w tr) (rendered i d)).
  generalize (eq_refl : current (mkState d true i bl al n w tr) = i).
  generalize (mkState d true i bl al n w tr). intros nav Hc.
  destruct d as [ms ps bn bp W ml mr fr url].
  unfold rendered, rendered_markers, rendered_button, rendered_fragment,
    rendered_panels.
  cbn [markers panels button_next button_prev wrapper_outer_width margin_left
       margin_right fragment url_gototab].
  assert (Hm : measures (mkDocument (imap (refresh_marker i) ms) (map hide ps)
                                    bn bp W ml mr fr url)
               = measures (mkDocument ms ps bn bp W ml mr fr url)).
  { unfold measures. cbn [markers button_next button_prev wrapper_outer_width
                          margin_left margin_right].
    by rewrite labels_refresh. }
  destruct (measures_widths _ _ Hm) as (Hb & Hr & _).
  destruct (Z.of_nat (length ms) <=? 0) eqn:En;
    destruct (i <? 0) eqn:Ei; destruct (0 <? i) eqn:Ej;
    rewrite hide_container_over, refresh_navigation_over, Hc;
    unfold with_markers, with_panels;
    cbn [markers panels button_next button_prev wrapper_outer_width
         margin_left margin_right fragment url_gototab];
    rewrite fillNavigation_over;
    cbn [markers panels button_next button_prev wrapper_outer_width
         margin_left margin_right fragment url_gototab];
    rewrite ?length_imap, En; cbv zeta; rewrite ?Hb, ?Hr;
    unfold with_markers, with_button_prev, with_button_next;
    cbn [markers panels button_next button_prev wrapper_outer_width
         margin_left margin_right fragment url_gototab];
    rewrite toggle_buttonPrev_over, Hc;
    unfold with_button_prev;
    cbn [markers panels button_next button_prev wrapper_outer_width
         margin_left margin_right fragment url_gototab];
    rewrite toggle_buttonNext_over, Hc;
    unfold with_button_next;
    cbn [markers panels button_next button_prev wrapper_outer_width
         margin_left margin_right fragment url_gototab];
    rewrite ?spread_padding_length, ?length_imap;
    rewrite show_current_over, Hc, Ei;
    unfold with_panels;
    cbn [markers panels button_next button_prev wrapper_outer_width
         margin_left margin_right fragment url_gototab];
    rewrite update_hash_over, Hc, Ej, ?Ei;
    unfold with_fragment;
    cbn [markers panels button_next button_prev wrapper_outer_width
         margin_left margin_right fragment url_gototab];
    try reflexivity;
    destruct (0 <? String.length _)%nat; reflexivity.
Qed.










(** Before [init] only the location hash is written. *)
Lemma goTo_update_unbound i d c (bl al : list (@Interceptor World)) n w tr :
  goTo_update i (mkState d false c bl al n w tr) =
  update_hash (mkState d false i bl al n w tr).
Proof.
  unfold goTo_update. cbv zeta.
  change (with_current i (mkState d false c bl al n w tr))
    with (mkState d false i bl al n w tr).
  change (hide_container (mkState d false i bl al n w tr))
    with (mkState d false i bl al n w tr).
  change (refresh_navigation (mkState d false i bl al n w tr))
    with (mkState d false i bl al n w tr).
  change (fillNavigation (mkState d false i bl al n w tr))
    with (mkState d false i bl al n w tr).
  assert (toggle_buttonPrev (mkState d false i bl al n w tr)
          = mkState d false i bl al n w tr) as ->.
  { unfold toggle_buttonPrev. by destruct (_ <=? _). }
  assert (toggle_buttonNext (mkState d false i bl al n w tr)
          = mkState d false i bl al n w tr) as ->.
  { unfold toggle_buttonNext. by destruct (_ =? _). }
  assert (show_current (mkState d false i bl al n w tr)
          = mkState d false i bl al n w tr) as ->.
  { unfold show_current. by destruct (_ <? _). }
  reflexivity.
Qed.





End Idem.


(** * Further properties of the service *)

(** ** What a transition leaves in the document *)

Section Outcome.

Context {World : Type}.
Implicit Types (s : @State World) (i : Z).

Lemma goTo_vetoed_state s i ign :
  fst (beforePhase s i ign) = false ->
  goTo i ign s = snd (beforePhase s i ign).
Proof. intros H. by rewrite goTo_phases, H. Qed.

Lemma goTo_vetoed_frame s i ign :
  fst (beforePhase s i ign) = false ->
  doc (goTo i ign s) = doc s
  /\ bound (goTo i ign s) = bound s
  /\ current (goTo i ign s) = current s.
Proof.
  intros H. rewrite (goTo_vetoed_state s i ign H).
  by destruct (beforePhase_frame s i ign) as (-> & -> & -> & _).
Qed.

Lemma navigation_bound s : bound s = true -> navigation s = markers (doc s).
Proof. unfold navigation. by intros ->. Qed.


(** On a bound navigator a transition that is made leaves the rendered
    document. *)
Lemma goTo_rendered s i ign :
  bound s = true ->
  fst (beforePhase s i ign) = true ->
  doc (goTo i ign s) = rendered i (doc s).
Proof.
  intros Hb Hok. rewrite (goTo_doc s i ign Hok).
  destruct (beforePhase_frame s i ign) as (Hd & Hb' & _).
  destruct (snd (beforePhase s i ign)) as [d b c bl al n w tr].
  simpl in Hd, Hb'. subst d. rewrite Hb in Hb'. subst b.
  by rewrite goTo_update_rendered.
Qed.

Lemma goTo_length_navigation s i ign :
  length (navigation (goTo i ign s)) = length (navigation s).
Proof.
  destruct (fst (beforePhase s i ign)) eqn:Hok.
  - by apply navigation_goTo_length.
  - destruct (goTo_vetoed_frame s i ign Hok) as (Hd & Hb & _).
    by rewrite (navigation_ext _ s Hd Hb).
Qed.

Lemma goTo_length_container s i ign :
  length (container (goTo i ign s)) = length (container s).
Proof.
  rewrite <- (length_map checkout_id (container (goTo i ign s))).
  change (map checkout_id (container (goTo i ign s)))
    with (panel_ids (goTo i ign s)).
  rewrite panel_ids_goTo. apply length_map.
Qed.


(** X2. After a transition that is made on a bound navigator with [N]
    markers, the "previous" button is disabled exactly when [i <= 0] and
    the "next" button exactly when [i + 1 = N].  A disabled button's
    operation does nothing; an enabled "previous" calls [goTo(i - 1)], and
    an enabled "next" calls [goTo(i + 1)] when [i] is below [N]. *)
Theorem buttons_follow_the_guards s i ign :
  bound s = true ->
  fst (beforePhase s i ign) = true ->
  let s' := goTo i ign s in
  let N := Z.of_nat (length (navigation s)) in
  attr_disabled (button_prev (doc s')) = (i <=? 0)
  /\ attr_disabled (button_next (doc s')) = (i + 1 =? N)
  /\ (attr_disabled (button_prev (doc s')) = true -> previous s' = s')
  /\ (attr_disabled (button_prev (doc s')) = false ->
      previous s' = goTo (i - 1) false s')
  /\ (attr_disabled (button_next (doc s')) = true -> next s' = s')
  /\ (i < N -> attr_disabled (button_next (doc s')) = false ->
      next s' = goTo (i + 1) false s').
Proof.
  intros Hb Hok s' N.
  assert (Hp : attr_disabled (button_prev (doc s')) = (i <=? 0)).
  { unfold s'. rewrite (goTo_rendered s i ign Hb Hok).
    cbn [rendered button_prev]. unfold rendered_button. by destruct (_ <=? 0). }
  assert (Hn : attr_disabled (button_next (doc s')) = (i + 1 =? N)).
  { unfold s'. rewrite (goTo_rendered s i ign Hb Hok).
    cbn [rendered button_next]. unfold rendered_button.
    rewrite <- (navigation_bound s Hb). by destruct (_ <=? 0). }
  assert (Hc : current s' = i) by (by apply goTo_current).
  assert (Hl : Z.of_nat (length (navigation s')) = N).
  { unfold s', N. by rewrite goTo_length_navigation. }
  rewrite Hp, Hn. split; [done|]. split; [done|].
  unfold previous, next. rewrite Hc, Hl. repeat split; intros.
  - by assert ((0 <? i) = false) as -> by zlia.
  - by assert ((0 <? i) = true) as -> by zlia.
  - by assert ((i <? N - 1) = false) as -> by zlia.
  - by assert ((i <? N - 1) = true) as -> by zlia.
Qed.

End Outcome.


Lemma buttons_follow_the_guards_witness :
  attr_disabled (button_prev (doc (goTo 2 true demo))) = false
  /\ attr_disabled (button_next (doc (goTo 2 true demo))) = true
  /\ next (goTo 2 true demo) = goTo 2 true demo.
Proof.
  pose proof (buttons_follow_the_guards demo 2 true eq_refl eq_refl)
    as (Hp & Hn & _ & _ & Hnext & _).
  split; [exact Hp|]. split; [exact Hn|]. apply Hnext. exact Hn.
Defined.

(** ** Visited markers, clicks and the location hash *)

Section Revisit.

Context {World : Type}.
Implicit Types (s : @State World) (i : Z).

Lemma refresh_marker_disabled i k m :
  hasClass Disabled (refresh_marker i k m) =
  (i <? Z.of_nat k) && negb (hasClass Visited m).
Proof.
  destruct m as [md ma mv ar lw pl pr]. unfold refresh_marker.
  destruct (Z.of_nat k <? i) eqn:E1.
  { by assert ((i <? Z.of_nat k) = false) as -> by zlia. }
  destruct (Z.of_nat k =? i) eqn:E2.
  { by assert ((i <? Z.of_nat k) = false) as -> by zlia. }
  assert ((i <? Z.of_nat k) = true) as -> by zlia.
  by destruct mv.
Qed.

Lemma refresh_marker_visited i k m :
  hasClass Visited (refresh_marker i k m) =
  (Z.of_nat k <=? i) || hasClass Visited m.
Proof.
  destruct m as [md ma mv ar lw pl pr]. unfold refresh_marker.
  destruct (Z.of_nat k <? i) eqn:E1.
  { by assert ((Z.of_nat k <=? i) = true) as -> by zlia. }
  destruct (Z.of_nat k =? i) eqn:E2.
  { by assert ((Z.of_nat k <=? i) = true) as -> by zlia. }
  assert ((Z.of_nat k <=? i) = false) as -> by zlia.
  destruct (i <? Z.of_nat k); by destruct mv.
Qed.

(** The marker at [k] after a transition that is made. *)
Lemma navigation_goTo_marker s i ign k m0 :
  fst (beforePhase s i ign) = true ->
  navigation s !! k = Some m0 ->
  exists l r,
    navigation (goTo i ign s) !! k =
    Some (set_padding l r (refresh_marker i k m0)).
Proof.
  intros Hok Hm0.
  destruct (lookup_lt_is_Some_2 (navigation (goTo i ign s)) k) as [m Hm].
  { rewrite goTo_length_navigation. by eapply lookup_lt_Some. }
  destruct (navigation_goTo_lookup i ign s k m Hok Hm)
    as (m1 & l & r & Hm1 & ->).
  exists l, r. congruence.
Qed.

Lemma goTo_keeps_visited s i ign k m0 :
  navigation s !! k = Some m0 ->
  hasClass Visited m0 = true ->
  exists m, navigation (goTo i ign s) !! k = Some m
            /\ hasClass Visited m = true
            /\ (fst (beforePhase s i ign) = true ->
                hasClass Disabled m = false).
Proof.
  intros Hm0 Hv. destruct (fst (beforePhase s i ign)) eqn:Hok.
  - destruct (navigation_goTo_marker s i ign k m0 Hok Hm0) as (l & r & Hm).
    eexists. split; [exact Hm|]. split.
    + change (hasClass Visited (refresh_marker i k m0) = true).
      by rewrite refresh_marker_visited, Hv, orb_true_r.
    + intros _. change (hasClass Disabled (refresh_marker i k m0) = false).
      by rewrite refresh_marker_disabled, Hv, andb_false_r.
  - destruct (goTo_vetoed_frame s i ign Hok) as (Hd & Hb & _).
    exists m0. rewrite (navigation_ext _ s Hd Hb). by repeat split.
Qed.

(** X3. The class [visited] is never taken away: a marker that carries it
    carries it after any sequence of [goTo] calls, made or vetoed, and after
    a call that is made it does not carry [disabled]. *)
Theorem visited_is_kept s k m0 :
  navigation s !! k = Some m0 ->
  hasClass Visited m0 = true ->
  (forall requests, exists m,
      navigation (goTo_all requests s) !! k = Some m
      /\ hasClass Visited m = true)
  /\ (forall i ign, fst (beforePhase s i ign) = true ->
        exists m, navigation (goTo i ign s) !! k = Some m
                  /\ hasClass Visited m = true
                  /\ hasClass Disabled m = false).
Proof.
  intros Hm0 Hv. split.
  - intros requests. revert s m0 Hm0 Hv.
    induction requests as [|[i ign] rest IH]; intros s m0 Hm0 Hv.
    + by exists m0.
    + destruct (goTo_keeps_visited s i ign k m0 Hm0 Hv) as (m & Hm & Hvm & _).
      exact (IH (goTo i ign s) m Hm Hvm).
  - intros i ign Hok.
    destruct (goTo_keeps_visited s i ign k m0 Hm0 Hv) as (m & Hm & Hvm & Hd).
    exists m. split; [done|]. split; [done|]. by apply Hd.
Qed.

(** X4. Clicks after a transition to [i] that is made: a click on a marker
    at or below [i], or on one that carried [visited], calls [goTo] with
    its index; a click on a marker beyond [i] that never carried [visited]
    does nothing, and so does a click where there is no marker. *)
Theorem click_after_goTo s i ign k :
  fst (beforePhase s i ign) = true ->
  let s' := goTo i ign s in
  (forall m0, navigation s !! k = Some m0 ->
     Z.of_nat k <= i \/ hasClass Visited m0 = true ->
     on_marker_click k s' = goTo (Z.of_nat k) false s')
  /\ (forall m0, navigation s !! k = Some m0 ->
        i < Z.of_nat k -> hasClass Visited m0 = false ->
        on_marker_click k s' = s')
  /\ (navigation s !! k = None -> on_marker_click k s' = s').
Proof.
  intros Hok s'. unfold on_marker_click. repeat split.
  - intros m0 Hm0 Hk.
    destruct (navigation_goTo_marker s i ign k m0 Hok Hm0) as (l & r & Hm).
    fold s' in Hm. rewrite Hm.
    change (hasClass Disabled (set_padding l r (refresh_marker i k m0)))
      with (hasClass Disabled (refresh_marker i k m0)).
    rewrite refresh_marker_disabled.
    destruct Hk as [Hk|Hk].
    + by assert ((i <? Z.of_nat k) = false) as -> by zlia.
    + by rewrite Hk, andb_false_r.
  - intros m0 Hm0 Hk Hv.
    destruct (navigation_goTo_marker s i ign k m0 Hok Hm0) as (l & r & Hm).
    fold s' in Hm. rewrite Hm.
    change (hasClass Disabled (set_padding l r (refresh_marker i k m0)))
      with (hasClass Disabled (refresh_marker i k m0)).
    rewrite refresh_marker_disabled, Hv.
    by assert ((i <? Z.of_nat k) = true) as -> by zlia.
  - intros Hnone. apply lookup_ge_None in Hnone.
    assert (navigation s' !! k = None) as ->; [|done].
    apply lookup_ge_None. unfold s'. by rewrite goTo_length_navigation.
Qed.

End Revisit.

(** X3 at work: [demo] has been at step 0; its first marker stays visited
    through a forced jump and a vetoed one. *)
Lemma visited_is_kept_witness :
  exists m, navigation (goTo_all [(2, true); (1, false); (2, false)] demo)
              !! 0%nat = Some m
            /\ hasClass Visited m = true.
Proof.
  exact (proj1 (visited_is_kept demo 0%nat _ eq_refl eq_refl)
               [(2, true); (1, false); (2, false)]).
Defined.

(** X4 at work: [demo] at step 1: a click on marker 0 goes back, a click
    on marker 2 does nothing. *)
Lemma click_after_goTo_witness :
  on_marker_click 0 (goTo 1 true demo) = goTo 0 false (goTo 1 true demo)
  /\ on_marker_click 2 (goTo 1 true demo) = goTo 1 true demo.
Proof.
  pose proof (click_after_goTo demo 1 true 0%nat eq_refl) as (Hin & _).
  pose proof (click_after_goTo demo 1 true 2%nat eq_refl) as (_ & Hout & _).
  assert (H0 : navigation demo !! 0%nat = Some (mkMarker false true true
                 [Some "true"%string] 10 17 17)) by (vm_compute; reflexivity).
  assert (H2 : navigation demo !! 2%nat = Some (mkMarker true false false
                 [Some "false"%string] 10 17 16)) by (vm_compute; reflexivity).
  split.
  - apply (Hin _ H0). left. vm_compute. discriminate.
  - apply (Hout _ H2); [vm_compute|]; reflexivity.
Defined.

(** ** The location hash written by [goTo] *)

Section Hash.

Context {World : Type}.
Implicit Types (s : @State World) (i : Z).




End Hash.


(** ** The layout pass on its own *)

Section LayoutPass.

Context {World : Type}.
Implicit Types (s : @State World) (d : Document).











End LayoutPass.



(** ** What interceptors can and cannot do *)

Section Gate.

Context {World : Type}.
Implicit Types (s : @State World) (i : Z) (l : list (@Interceptor World)).

Lemma each_interceptor_verdict k t l : forall n w tr,
  fst (each_interceptor k t n l w tr) =
  match allows l t w with Some _ => true | None => false end.
Proof.
  induction l as [|f rest IH]; intros n w tr; simpl; [done|].
  destruct (f t w) as [v w']. simpl. destruct (strictly_false v); [done|].
  apply IH.
Qed.

Lemma beforePhase_verdict s i :
  current s <> i ->
  fst (beforePhase s i false) =
  match allows (beforeChange_list s) (targetContainer s i) (world s) with
  | Some _ => true
  | None => false
  end.
Proof.
  intros Hne. unfold beforePhase.
  assert ((current s =? i) = false) as -> by zlia. cbn [negb andb].
  unfold resolveInterceptors. cbn [interceptors].
  rewrite <- (each_interceptor_verdict BeforeChange _ _ 0%nat (world s) (trace s)).
  by destruct (each_interceptor _ _ _ _ _ _) as [c [w tr]].
Qed.

Lemma allows_veto_all l : forall t w, allows (l ++ [veto_all]) t w = None.
Proof.
  induction l as [|f rest IH]; intros t w; simpl; [done|].
  by destruct (strictly_false (fst (f t w))).
Qed.

Lemma resolveInterceptors_interceptors k t s :
  beforeChange_list (snd (resolveInterceptors k t s)) = beforeChange_list s
  /\ afterChange_list (snd (resolveInterceptors k t s)) = afterChange_list s.
Proof. by rewrite resolveInterceptors_host. Qed.

Lemma goTo_interceptors s i ign :
  beforeChange_list (goTo i ign s) = beforeChange_list s
  /\ afterChange_list (goTo i ign s) = afterChange_list s.
Proof.
  destruct (beforePhase_frame s i ign) as (_ & _ & _ & Hbl & Hal).
  destruct (goTo_update_interceptors i (snd (beforePhase s i ign))) as [Hb Ha].
  destruct (fst (beforePhase s i ign)) eqn:Hok.
  - rewrite goTo_phases, Hok. destruct (current s =? i).
    + by rewrite Hb, Ha.
    + destruct (resolveInterceptors_interceptors AfterChange
                  (targetContainer s i)
                  (goTo_update i (snd (beforePhase s i ign)))) as [-> ->].
      by rewrite Hb, Ha.
  - by rewrite (goTo_vetoed_state s i ign Hok).
Qed.

Lemma goTo_blocked s i l :
  beforeChange_list s = l ++ [veto_all] ->
  current (goTo i false s) = current s
  /\ (current s <> i -> doc (goTo i false s) = doc s).
Proof.
  intros Hl. destruct (decide (current s = i)) as [Heq|Hne].
  - split; [|done]. by rewrite (goTo_same s i false Heq), goTo_update_current.
  - assert (Hv : fst (beforePhase s i false) = false).
    { by rewrite (beforePhase_verdict s i Hne), Hl, allows_veto_all. }
    destruct (goTo_vetoed_frame s i false Hv) as (Hd & _ & Hc). done.
Qed.

(** X8. Once an interceptor that answers [false] to everything is
    registered with [beforeChange], no sequence of plain [goTo] calls moves
    [current], and a call for another step leaves the document alone, what
    ever else is registered; [continueChange] still reaches its target. *)
Theorem veto_all_freezes s :
  (forall requests,
     Forall (fun r => snd r = false) requests ->
     current (goTo_all requests (beforeChange veto_all s)) = current s)
  /\ (forall i, current s <> i ->
        doc (goTo i false (beforeChange veto_all s)) = doc s)
  /\ (forall target,
        current (continueChange target (beforeChange veto_all s))
        = index target).
Proof.
  split; [|split].
  - intros requests Hreq.
    change (current s) with (current (beforeChange veto_all s)).
    assert (Hl : beforeChange_list (beforeChange veto_all s) =
                 beforeChange_list s ++ [veto_all]) by done.
    revert Hl. generalize (beforeChange_list s).
    generalize (beforeChange veto_all s). clear s.
    induction Hreq as [|[i ign] rest Hi Hrest IH]; intros s l Hl; [done|].
    simpl in Hi. subst ign. cbn [goTo_all fold_left fst snd].
    change (fold_left _ rest ?x) with (goTo_all rest x).
    rewrite (IH (goTo i false s) l).
    + exact (proj1 (goTo_blocked s i l Hl)).
    + by rewrite (proj1 (goTo_interceptors s i false)).
  - intros i Hne.
    exact (proj2 (goTo_blocked (beforeChange veto_all s) i
                    (beforeChange_list s) eq_refl) Hne).
  - intros target. unfold continueChange. apply goTo_current.
    unfold beforePhase. by rewrite andb_false_r.
Qed.

Lemma goTo_update_doc_ext s s' i :
  doc s = doc s' -> bound s = bound s' ->
  doc (goTo_update i s) = doc (goTo_update i s').
Proof.
  destruct s as [d b c bl al n w tr], s' as [d' b' c' bl' al' n' w' tr'].
  simpl. intros <- <-. destruct b.
  - by rewrite !goTo_update_rendered.
  - rewrite !goTo_update_unbound.
    unfold update_hash, set_location_hash, location_hash, container_at,
      container.
    cbn [current doc bound with_doc].
    destruct (0 <? i); [done|].
    by destruct (0 <? String.length _)%nat.
Qed.

(** X9. After-interceptors have no say in a transition: with any other
    list of after-interceptors registered, [goTo] is vetoed or made alike
    and ends with the same [current] and the same document; so it is after
    [afterChange] has registered one more. *)
Theorem after_interceptors_do_not_steer s i ign al :
  (fst (beforePhase (with_afterChange al s) i ign) = fst (beforePhase s i ign)
   /\ current (goTo i ign (with_afterChange al s)) = current (goTo i ign s)
   /\ doc (goTo i ign (with_afterChange al s)) = doc (goTo i ign s))
  /\ (forall g,
        current (goTo i ign (afterChange g s)) = current (goTo i ign s)
        /\ doc (goTo i ign (afterChange g s)) = doc (goTo i ign s)).
Proof.
  assert (Hgen : forall al,
    fst (beforePhase (with_afterChange al s) i ign) = fst (beforePhase s i ign)
    /\ current (goTo i ign (with_afterChange al s)) = current (goTo i ign s)
    /\ doc (goTo i ign (with_afterChange al s)) = doc (goTo i ign s));
  [clear al; intros al
  |split; [apply Hgen|];
   intros g; exact (proj2 (Hgen (afterChange_list s ++ [g])))].
  assert (Hbp : beforePhase (with_afterChange al s) i ign =
                (fst (beforePhase s i ign),
                 with_afterChange al (snd (beforePhase s i ign)))).
  { unfold beforePhase. cbn [current with_afterChange].
    destruct (negb (current s =? i) && negb ign); [|done].
    unfold resolveInterceptors.
    change (targetContainer (with_afterChange al s) i)
      with (targetContainer s i).
    cbn [interceptors beforeChange_list world trace with_afterChange].
    by destruct (each_interceptor _ _ _ _ _ _) as [c [w tr]]. }
  split; [by rewrite Hbp|].
  rewrite !goTo_phases, Hbp. cbn [fst snd current with_afterChange].
  destruct (beforePhase_frame s i ign) as (Hd & Hb & Hc & _).
  destruct (fst (beforePhase s i ign)).
  - assert (Hdoc : doc (goTo_update i (with_afterChange al
                                         (snd (beforePhase s i ign)))) =
                   doc (goTo_update i (snd (beforePhase s i ign))))
      by (by apply goTo_update_doc_ext).
    destruct (current s =? i);
      rewrite ?resolveInterceptors_current, ?resolveInterceptors_doc,
        ?goTo_update_current; done.
  - done.
Qed.

End Gate.

(** X8 at work: [demo] with the interceptor added stays at step 0. *)
Lemma veto_all_freezes_witness :
  current (goTo_all [(1, false); (2, false)] (beforeChange veto_all demo)) = 0
  /\ current (continueChange (mkTarget 1 None) (beforeChange veto_all demo)) = 1.
Proof.
  pose proof (veto_all_freezes demo) as (Hall & _ & Hcont).
  split; [|exact (Hcont (mkTarget 1 None))].
  apply (Hall [(1, false); (2, false)]). by repeat constructor.
Defined.

(** ** The index stays in range *)

Section Range.

Context {World : Type}.
Implicit Types (s : @State World) (i : Z).

Lemma steady_goTo s i ign :
  steady s ->
  0 <= i < Z.of_nat (length (container s)) ->
  steady (goTo i ign s).
Proof.
  intros (Ha & Hn & Hc) Hi. unfold steady.
  rewrite goTo_length_navigation, goTo_length_container.
  split; [done|]. split; [done|].
  destruct (fst (beforePhase s i ign)) eqn:Hok.
  - rewrite (goTo_current s i ign Hok). lia.
  - by rewrite (proj2 (proj2 (goTo_vetoed_frame s i ign Hok))).
Qed.

Lemma steady_goTo_each s (ks : list nat) : forall st : @State World,
  steady st ->
  length (container st) = length (container s) ->
  Forall (fun k => (k < length (container s))%nat) ks ->
  steady (fold_left (fun st k => goTo (Z.of_nat k) false st) ks st).
Proof.
  induction ks as [|k ks IH]; intros st Hst Hlen Hks; [done|].
  inversion Hks as [|? ? Hk Hrest]; subst. cbn [fold_left].
  apply IH; [|by rewrite goTo_length_container|done].
  apply steady_goTo; [done|]. rewrite Hlen. lia.
Qed.

Lemma matching_in_range x s :
  Forall (fun k => (k < length (container s))%nat) (matching x 0 (container s)).
Proof.
  apply Forall_forall. intros k Hk.
  apply elem_of_matching in Hk as (p & _ & Hp & _).
  rewrite Nat.sub_0_r in Hp. by eapply lookup_lt_Some.
Qed.

Lemma steady_next s : steady s -> steady (next s).
Proof.
  intros Hs. unfold next.
  destruct (current s <? Z.of_nat (length (navigation s)) - 1) eqn:E; [|done].
  apply steady_goTo; [done|].
  destruct Hs as (Ha & Hn & Hc). rewrite Ha in E. zlia.
Qed.

Lemma steady_previous s : steady s -> steady (previous s).
Proof.
  intros Hs. unfold previous. destruct (0 <? current s) eqn:E; [|done].
  apply steady_goTo; [done|]. destruct Hs as (Ha & Hn & Hc). zlia.
Qed.

Lemma steady_goToID s x : steady s -> steady (snd (goToID x s)).
Proof.
  intros Hs. unfold goToID.
  destruct (String.eqb x "next"); [by apply steady_next|].
  destruct (String.eqb x "prev"); [by apply steady_previous|].
  cbn [snd]. rewrite each_container_matching.
  apply (steady_goTo_each s); [done|done|apply matching_in_range].
Qed.

Lemma steady_fillNavigation s : steady s -> steady (fillNavigation s).
Proof.
  intros (Ha & Hn & Hc). unfold steady.
  rewrite container_fillNavigation, navigation_fillNavigation. cbv zeta.
  rewrite spread_padding_length.
  by rewrite (fillNavigation_frame s).
Qed.

(** X10. On a navigator with as many markers as panels, at least one, and
    [current] at -1 or at a step, every operation the handlers run keeps it
    so: [next], [previous], [goToID] with any identifier, a click on any
    marker, the [hashchange] handler, the layout pass, and [goTo] itself
    with the index of a step.  None of them calls [goTo] out of range. *)
Theorem steady_is_kept s :
  steady s ->
  steady (next s)
  /\ steady (previous s)
  /\ (forall containerID, steady (snd (goToID containerID s)))
  /\ (forall k, steady (on_marker_click k s))
  /\ steady (on_hashchange s)
  /\ steady (fillNavigation s)
  /\ (forall i ign, 0 <= i < Z.of_nat (length (container s)) ->
        steady (goTo i ign s)).
Proof.
  intros Hs.
  split; [by apply steady_next|]. split; [by apply steady_previous|].
  split; [intros x; by apply steady_goToID|].
  split; [|split; [|split]].
  - intros k. unfold on_marker_click.
    destruct (navigation s !! k) as [elem|] eqn:Hk; [|done].
    destruct (negb (hasClass Disabled elem)); [|done].
    apply steady_goTo; [done|].
    apply lookup_lt_Some in Hk. destruct Hs as (Ha & _). lia.
  - unfold on_hashchange.
    destruct (0 <? String.length (location_hash s))%nat;
      [by apply steady_goToID|].
    apply steady_goTo; [done|]. destruct Hs as (_ & Hn & _). lia.
  - by apply steady_fillNavigation.
  - intros i ign Hi. by apply steady_goTo.
Qed.

End Range.

(** X10 at work on [demo]. *)
Lemma steady_is_kept_witness :
  steady demo /\ steady (next demo) /\ steady (snd (goToID "#c" demo)).
Proof.
  assert (H : steady demo).
  { unfold steady. vm_compute. repeat split; (lia || discriminate). }
  pose proof (steady_is_kept demo H) as (Hn & _ & Hid & _).
  split; [exact H|]. split; [exact Hn | exact (Hid "#c"%string)].
Defined.

(** ** Initialization on well-formed markup *)

Section Init.

Context {World : Type}.
Implicit Types (s : @State World) (i : Z) (d : Document).





End Init.

Section FirstStep.

Context {World : Type}.
Implicit Types (s : @State World) (i : Z) (d : Document).







End FirstStep.


Section DeepLink.

Context {World : Type}.
Implicit Types (s : @State World) (i : Z) (d : Document).

Lemma location_hash_fragment s (x : string) :
  fragment (doc s) = x -> x <> ""%string ->
  location_hash s = String "#"%char x.
Proof.
  intros Hf Hx. unfold location_hash. rewrite Hf. by destruct x.
Qed.

Lemma goToID_hash s x :
  goToID (String "#"%char x) s =
  (false, fold_left (fun st k => goTo (Z.of_nat k) false st)
                    (matching x 0 (container s)) s).
Proof.
  rewrite goToID_other by discriminate. cbn [replace_hash].
  by rewrite Ascii.eqb_refl.
Qed.



End DeepLink.



(** ** Forth and back, unknown fragments, repeated identifiers *)

Section Compose.

Context {World : Type}.
Implicit Types (s : @State World) (i : Z).

(** X14. One step forth and one step back.  From a step [c] that is not
    the last one, if neither transition is vetoed, [previous()] after
    [next()] is back at [c]; the marker of step [c + 1] is then visited, not
    active and not disabled. *)
Theorem next_then_previous s m0 :
  0 <= current s < Z.of_nat (length (navigation s)) - 1 ->
  fst (beforePhase s (current s + 1) false) = true ->
  fst (beforePhase (next s) (current s) false) = true ->
  navigation s !! Z.to_nat (current s + 1) = Some m0 ->
  next s = goTo (current s + 1) false s
  /\ previous (next s) = goTo (current s) false (next s)
  /\ current (previous (next s)) = current s
  /\ exists m,
       navigation (previous (next s)) !! Z.to_nat (current s + 1) = Some m
       /\ classes m = (false, false, true).
Proof.
  intros Hc Hok1 Hok2 Hm0.
  assert (Hn : next s = goTo (current s + 1) false s).
  { unfold next. by assert ((current s <? Z.of_nat (length (navigation s)) - 1)
                            = true) as -> by zlia. }
  assert (Hcn : current (next s) = current s + 1)
    by (by rewrite Hn, goTo_current).
  assert (Hp : previous (next s) = goTo (current s) false (next s)).
  { unfold previous. rewrite Hcn.
    assert ((0 <? current s + 1) = true) as -> by zlia.
    f_equal. lia. }
  split; [exact Hn|]. split; [exact Hp|].
  split; [by rewrite Hp, goTo_current|].
  destruct (navigation_goTo_marker s (current s + 1) false _ m0 Hok1 Hm0)
    as (l & r & Hm1).
  rewrite <- Hn in Hm1.
  destruct (navigation_goTo_marker (next s) (current s) false _ _ Hok2 Hm1)
    as (l' & r' & Hm2).
  rewrite <- Hp in Hm2. eexists. split; [exact Hm2|].
  set (k := Z.to_nat (current s + 1)) in *.
  assert (Hk : Z.of_nat k = current s + 1) by (unfold k; lia).
  change (classes (set_padding l' r' ?m)) with (classes m).
  unfold classes.
  change (cls_disabled ?m) with (hasClass Disabled m).
  change (cls_active ?m) with (hasClass Active m).
  change (cls_visited ?m) with (hasClass Visited m).
  rewrite refresh_marker_disabled, refresh_marker_active,
    refresh_marker_visited.
  change (hasClass Visited (set_padding l r ?m)) with (hasClass Visited m).
  rewrite refresh_marker_visited.
  assert ((Z.of_nat k <=? current s + 1) = true) as -> by zlia.
  assert ((Z.of_nat k =? current s) = false) as -> by zlia.
  by rewrite andb_false_r, orb_true_r.
Qed.

(** X15. The [hashchange] handler never delegates to [next] or
    [previous]: with a fragment [x] that is not empty it calls [goTo(k)]
    for the panels [k] that carry [x], whatever [x] is.  A fragment that no
    panel carries leaves the state as it is; an empty fragment calls
    [goTo(0)]. *)
Theorem hashchange_by_fragment s x :
  fragment (doc s) = x ->
  (x <> ""%string ->
   on_hashchange s =
   fold_left (fun st k => goTo (Z.of_nat k) false st)
             (matching x 0 (container s)) s)
  /\ (x <> ""%string -> matching x 0 (container s) = [] -> on_hashchange s = s)
  /\ (x = ""%string -> on_hashchange s = goTo 0 false s).
Proof.
  intros Hf.
  assert (H : x <> ""%string ->
              on_hashchange s =
              fold_left (fun st k => goTo (Z.of_nat k) false st)
                        (matching x 0 (container s)) s).
  { intros Hx. unfold on_hashchange.
    rewrite (location_hash_fragment s x Hf Hx).
    cbn [String.length Nat.ltb Nat.leb]. by rewrite goToID_hash. }
  split; [exact H|]. split.
  - intros Hx Hm. by rewrite (H Hx), Hm.
  - intros ->. unfold on_hashchange, location_hash. by rewrite Hf.
Qed.

Lemma beforePhase_no_interceptor s i ign :
  beforeChange_list s = [] -> beforePhase s i ign = (true, s).
Proof.
  intros Hl. unfold beforePhase.
  destruct (negb (current s =? i) && negb ign); [|done].
  unfold resolveInterceptors. cbn [interceptors]. rewrite Hl.
  cbn [each_interceptor]. by destruct s.
Qed.

Lemma goTo_each_last (ks : list nat) k : forall s,
  beforeChange_list s = [] ->
  current (fold_left (fun st j => goTo (Z.of_nat j) false st) (ks ++ [k]) s)
  = Z.of_nat k.
Proof.
  induction ks as [|j ks IH]; intros s Hl; cbn [app fold_left].
  - apply goTo_current. by rewrite beforePhase_no_interceptor.
  - apply IH. by rewrite (proj1 (goTo_interceptors s (Z.of_nat j) false)).
Qed.

(** X16. Repeated identifiers: [goToID] goes through all the panels that
    carry the identifier, so with no before-interceptor registered it ends
    at the last of them. *)
Theorem goToID_ends_at_last_match s containerID ks k :
  containerID <> "next"%string ->
  containerID <> "prev"%string ->
  beforeChange_list s = [] ->
  matching (replace_hash containerID) 0 (container s) = ks ++ [k] ->
  current (snd (goToID containerID s)) = Z.of_nat k
  /\ exists p, container s !! k = Some p
               /\ checkout_id p = Some (replace_hash containerID).
Proof.
  intros Hn Hp Hl Hm. rewrite (goToID_other s containerID Hn Hp), Hm.
  cbn [snd]. split; [by apply goTo_each_last|].
  assert (Hk : k ∈ matching (replace_hash containerID) 0 (container s)).
  { rewrite Hm. apply elem_of_app. right. by left. }
  apply elem_of_matching in Hk as (p & _ & Hk & Hid).
  rewrite Nat.sub_0_r in Hk. by exists p.
Qed.

End Compose.

(** X14 at work on [demo_after], which has no before-interceptor. *)
Lemma next_then_previous_witness :
  current (previous (next demo_after)) = 0
  /\ exists m, navigation (previous (next demo_after)) !! 1%nat = Some m
               /\ classes m = (false, false, true).
Proof.
  assert (H0 : navigation demo_after !! Z.to_nat (current demo_after + 1) =
               Some (mkMarker true false false [Some "false"%string] 10 17 17))
    by (vm_compute; reflexivity).
  pose proof (next_then_previous demo_after _
                ltac:(vm_compute; split; [discriminate | reflexivity])
                eq_refl ltac:(vm_compute; reflexivity) H0)
    as (_ & _ & Hc & Hm).
  split; [exact Hc | exact Hm].
Defined.

(** X15 at work: the fragment [next] on [demo] is looked up as an
    identifier, found nowhere, and changes nothing. *)
Lemma hashchange_by_fragment_witness :
  on_hashchange (with_doc (with_fragment "next" (doc demo)) demo)
  = with_doc (with_fragment "next" (doc demo)) demo.
Proof.
  pose proof (hashchange_by_fragment
                (with_doc (with_fragment "next" (doc demo)) demo)
                "next"%string eq_refl) as (_ & H & _).
  apply H; [discriminate | vm_compute; reflexivity].
Defined.

(** X16 at work: two panels carry ["b"]; the second one wins. *)
Lemma goToID_ends_at_last_match_witness :
  current (snd (goToID "#b" demo_twice_b)) = 2.
Proof.
  exact (proj1 (goToID_ends_at_last_match demo_twice_b "#b"%string
                  [1%nat] 2%nat ltac:(discriminate) ltac:(discriminate)
                  eq_refl ltac:(vm_compute; reflexivity))).
Defined.
